(** * NimBLECharacteristic: value management, subscriptions and notify/indicate

    A shallow embedding of [src/NimBLECharacteristic.cpp].  Every member
    function of the class that touches the characteristic value, the
    descriptor vector, the subscriber table of the 2902 descriptor or the
    confirmation semaphore is a Rocq function on an explicit object state;
    calls into user callbacks, the semaphore, the log and the NimBLE host
    are recorded, in program order, in a trace of [action]s.  What the host
    answers (peer MTU, return codes, the value the semaphore is signalled
    with) is supplied by a [Host] record. *)

From Stdlib Require Import ZArith Lia String Strings.Byte.
From stdpp Require Import base list numbers.

Local Open Scope Z_scope.

(** ** Fixed-width unsigned integers *)

Definition uint8_t (z : Z) : Z := z mod 2 ^ 8.
Definition uint16_t (z : Z) : Z := z mod 2 ^ 16.
Definition uint32_t (z : Z) : Z := z mod 2 ^ 32.
(** [size_t] on the 32-bit targets the library is built for. *)
Definition size_t (z : Z) : Z := z mod 2 ^ 32.

(** [x & flag] used as a condition. *)
Definition test (x flag : Z) : bool := negb (Z.land x flag =? 0).

(** ** Constants

    [NULL_HANDLE] is defined in the source file.  The others come from
    headers of the NimBLE host and of this library that the source file
    includes; the values are those of the Bluetooth ATT/GATT assignments
    the headers encode. *)

Definition NULL_HANDLE : Z := 0xffff.

Definition BLE_ATT_ATTR_MAX_LEN : Z := 512.
Definition BLE_ATT_ERR_INVALID_ATTR_VALUE_LEN : Z := 0x0d.
Definition BLE_ATT_ERR_UNLIKELY : Z := 0x0e.
Definition BLE_ATT_ERR_INSUFFICIENT_RES : Z := 0x11.

Definition BLE_HS_ETIMEOUT : Z := 13.
Definition BLE_HS_EDONE : Z := 14.

Definition BLE_GATT_CHR_F_NOTIFY : Z := 0x0010.
Definition BLE_GATT_CHR_F_INDICATE : Z := 0x0020.
(** [NIMBLE_PROPERTY::INDICATE] *)
Definition NIMBLE_PROPERTY_INDICATE : Z := BLE_GATT_CHR_F_INDICATE.

Definition NIMBLE_DESC_FLAG_NOTIFY : Z := 0x0001.
Definition NIMBLE_DESC_FLAG_INDICATE : Z := 0x0002.

(** ** UUIDs

    A [NimBLEUUID] wraps a NimBLE [ble_uuid_any_t]: a 16, 32 or 128 bit
    value.  [operator==] goes through [ble_uuid_cmp], which first compares
    the width and then the value. *)

Inductive NimBLEUUID : Type :=
| UUID16 (v : Z)
| UUID32 (v : Z)
| UUID128 (v : Z).

Definition uuid_eqb (a b : NimBLEUUID) : bool :=
  match a, b with
  | UUID16 x, UUID16 y => x =? y
  | UUID32 x, UUID32 y => x =? y
  | UUID128 x, UUID128 y => x =? y
  | _, _ => false
  end.

(** [NimBLEUUID(uint16_t(0x2902))] and [NimBLEUUID(uint16_t(0x2904))] *)
Definition uuid2902 : NimBLEUUID := UUID16 (uint16_t 0x2902).
Definition uuid2904 : NimBLEUUID := UUID16 (uint16_t 0x2904).

(** ** Callback status codes ([NimBLECharacteristicCallbacks::Status]) *)

Inductive Status : Type :=
| SUCCESS_INDICATE
| SUCCESS_NOTIFY
| ERROR_INDICATE_DISABLED
| ERROR_NOTIFY_DISABLED
| ERROR_GATT
| ERROR_NO_CLIENT
| ERROR_INDICATE_TIMEOUT
| ERROR_INDICATE_FAILURE.

(** ** The value buffer *)

Module NimBLEValue.

(** Modelled from the spec: the class of [m_value] (committed value plus
    write accumulator) is declared outside the source file; section 4.1
    fixes its contract: [addPart] appends to the pending accumulator,
    [commit] replaces the committed value with the accumulator's contents
    and clears the accumulator, [setValue] replaces the committed value
    directly, the getters read the committed value. *)
Record t : Type := mk {
  m_accumulation : list byte;
  m_value : list byte
}.

Definition empty : t := mk [] [].

Definition addPart (v : t) (part : list byte) : t :=
  mk (m_accumulation v ++ part) (m_value v).

Definition commit (v : t) : t :=
  mk [] (m_accumulation v).

Definition setValue (v : t) (data : list byte) : t :=
  mk (m_accumulation v) data.

Definition getValue (v : t) : list byte := m_value v.
Definition getData (v : t) : list byte := m_value v.
Definition getLength (v : t) : Z := Z.of_nat (length (m_value v)).

End NimBLEValue.

(** ** Descriptors *)

(** [chr_sub_status_t]: one subscriber of the 2902 descriptor. *)
Record chr_sub_status_t : Type := mk_sub {
  conn_id : Z;
  sub_val : Z
}.

(** The part of a [NimBLE2902] this file reads and writes. *)
Record NimBLE2902 : Type := mk2902 {
  m_subscribedVec : list chr_sub_status_t;
  notifications : bool;
  indications : bool
}.

(** A descriptor is a [NimBLE2902], a [NimBLE2904] or a plain
    [NimBLEDescriptor] built from a UUID, properties and a maximum length. *)
Inductive NimBLEDescriptor : Type :=
| Desc2902 (d : NimBLE2902)
| Desc2904
| DescPlain (uuid : NimBLEUUID) (properties : Z) (max_len : Z).

Definition dsc_getUUID (d : NimBLEDescriptor) : NimBLEUUID :=
  match d with
  | Desc2902 _ => uuid2902
  | Desc2904 => uuid2904
  | DescPlain u _ _ => u
  end.

(** [new NimBLE2902(this)]: nobody subscribed, both bits clear. *)
Definition new2902 : NimBLE2902 := mk2902 [] false false.

(** ** Collaborators *)

Record NimBLEServer : Type := mkServer {
  getConnectedCount : Z;
  getPeerMTU : Z -> Z
}.

Record NimBLEService : Type := mkService {
  getServer : option NimBLEServer
}.

(** The confirmation semaphore [FreeRTOS::Semaphore]; the calls made on it
    appear in the trace. *)
Record Semaphore : Type := mkSemaphore {
  sem_name : string
}.

(** Answers of the NimBLE host during one call. *)
Record Host : Type := mkHost {
  (** [ble_gattc_indicate_custom(conn, handle, om)] *)
  ble_gattc_indicate_custom : Z -> Z -> list byte -> Z;
  (** [ble_gattc_notify_custom(conn, handle, om)] *)
  ble_gattc_notify_custom : Z -> Z -> list byte -> Z;
  (** the value [m_pSemaphore->wait()] returns for the indication sent to a
      connection *)
  semaphore_wait : Z -> Z;
  (** [os_mbuf_append(om, data, len)] *)
  os_mbuf_append : list byte -> Z
}.

(** ** Traces *)

Inductive log_level : Type := LOGI | LOGW | LOGE.

(** Argument of [Semaphore::give]: none, an [int], or a [Status]
    converted to the semaphore's value. *)
Inductive give_arg : Type :=
| give_default
| give_int (v : Z)
| give_status (s : Status).

Inductive action : Type :=
| log (lvl : log_level) (msg : string)
| onRead
| onWrite
| onNotify
| onStatus (s : Status) (code : Z)
| dsc_onWrite
| sem_take (owner : string)
| sem_give (v : give_arg)
| sem_wait
| gattc_indicate (conn handle : Z) (om : list byte)
| gattc_notify (conn handle : Z) (om : list byte)
| mbuf_append (data : list byte).

(** How a call ends: it returns, an [assert] aborts the program, or it
    dereferences a null pointer or a descriptor of the wrong class (after
    the events listed). *)
Inductive outcome (A : Type) : Type :=
| Returned (a : A)
| AssertFailed (msg : string)
| UndefinedBehaviour (before : list action).
Arguments Returned {A} a.
Arguments AssertFailed {A} msg.
Arguments UndefinedBehaviour {A} before.

(** ** The characteristic *)

Record NimBLECharacteristic : Type := mkChr {
  m_uuid : NimBLEUUID;
  m_handle : Z;
  m_properties : Z;
  m_pService : option NimBLEService;
  m_pSemaphore : option Semaphore;
  m_value : NimBLEValue.t;
  m_dscVec : list NimBLEDescriptor
}.

(** The constructor.  [properties] is a [uint16_t] parameter. *)
Definition construct (uuid : NimBLEUUID) (properties : Z)
    (pService : option NimBLEService) : NimBLECharacteristic :=
  let properties := uint16_t properties in
  {| m_uuid := uuid;
     m_handle := NULL_HANDLE;
     m_properties := properties;
     m_pService := pService;
     m_pSemaphore :=
       if test properties NIMBLE_PROPERTY_INDICATE
       then Some (mkSemaphore "ConfEvt")
       else None;
     m_value := NimBLEValue.empty;
     m_dscVec := [] |}.

Definition getHandle (c : NimBLECharacteristic) : Z := m_handle c.

(** [uint8_t getProperties()] returns [m_properties] converted to 8 bits. *)
Definition getProperties (c : NimBLECharacteristic) : Z :=
  uint8_t (m_properties c).

Definition getService (c : NimBLECharacteristic) := m_pService c.
Definition getUUID (c : NimBLECharacteristic) := m_uuid c.
Definition getValue (c : NimBLECharacteristic) : list byte :=
  NimBLEValue.getValue (m_value c).
Definition getData (c : NimBLECharacteristic) : list byte :=
  NimBLEValue.getData (m_value c).
Definition getDataLength (c : NimBLECharacteristic) : Z :=
  NimBLEValue.getLength (m_value c).

(** ** Descriptors of a characteristic

    A [NimBLEDescriptor*] is the position of the descriptor in [m_dscVec]:
    the vector only grows, at its end, so positions are stable. *)

Fixpoint find_descriptor (l : list NimBLEDescriptor) (uuid : NimBLEUUID)
    : option nat :=
  match l with
  | [] => None
  | it :: rest =>
      if uuid_eqb (dsc_getUUID it) uuid then Some 0%nat
      else S <$> find_descriptor rest uuid
  end.

(** [getDescriptorByUUID]: the first descriptor with that UUID, [None] for
    [nullptr]. *)
Definition getDescriptorByUUID (c : NimBLECharacteristic) (uuid : NimBLEUUID)
    : option nat :=
  find_descriptor (m_dscVec c) uuid.

Definition push_back_dsc (c : NimBLECharacteristic) (d : NimBLEDescriptor)
    : nat * NimBLECharacteristic :=
  (length (m_dscVec c),
   {| m_uuid := m_uuid c; m_handle := m_handle c;
      m_properties := m_properties c; m_pService := m_pService c;
      m_pSemaphore := m_pSemaphore c; m_value := m_value c;
      m_dscVec := m_dscVec c ++ [d] |}).

Definition createDescriptor (c : NimBLECharacteristic) (uuid : NimBLEUUID)
    (properties max_len : Z) : outcome (nat * NimBLECharacteristic) :=
  if uuid_eqb uuid uuid2902 then
    if negb (test (m_properties c) BLE_GATT_CHR_F_NOTIFY)
       && negb (test (m_properties c) BLE_GATT_CHR_F_INDICATE)
    then AssertFailed
      "Cannot create 2902 descriptior without characteristic notification or indication property set"
    else
      match getDescriptorByUUID c uuid with
      | None => Returned (push_back_dsc c (Desc2902 new2902))
      | Some pDescriptor => Returned (pDescriptor, c)
      end
  else if uuid_eqb uuid uuid2904 then
    Returned (push_back_dsc c Desc2904)
  else
    Returned (push_back_dsc c
                (DescPlain uuid (uint32_t properties) (uint16_t max_len))).

(** A run of [createDescriptor] calls, each on the object the previous one
    left. *)
Fixpoint createDescriptors (c : NimBLECharacteristic)
    (calls : list (NimBLEUUID * Z * Z)) : outcome NimBLECharacteristic :=
  match calls with
  | [] => Returned c
  | (uuid, properties, max_len) :: rest =>
      match createDescriptor c uuid properties max_len with
      | Returned (_, c') => createDescriptors c' rest
      | AssertFailed msg => AssertFailed msg
      | UndefinedBehaviour t => UndefinedBehaviour t
      end
  end.

(** Number of [NimBLE2902] objects in a descriptor vector. *)
Fixpoint count2902 (l : list NimBLEDescriptor) : nat :=
  match l with
  | [] => 0%nat
  | Desc2902 _ :: rest => S (count2902 rest)
  | _ :: rest => count2902 rest
  end.

(** The 2902 descriptor as the code reaches it: the result of
    [getDescriptorByUUID(uint16_t(0x2902))] cast to a pointer to
    [NimBLE2902]. *)
Inductive p2902_lookup : Type :=
| p2902_null
| p2902_at (p : nat) (d : NimBLE2902)
| p2902_bad_cast.

Definition lookup2902 (c : NimBLECharacteristic) : p2902_lookup :=
  match getDescriptorByUUID c uuid2902 with
  | None => p2902_null
  | Some p =>
      match m_dscVec c !! p with
      | Some (Desc2902 d) => p2902_at p d
      | _ => p2902_bad_cast
      end
  end.

(** The subscriber table, when the characteristic has a 2902 descriptor. *)
Definition subscribers (c : NimBLECharacteristic)
    : option (list chr_sub_status_t) :=
  match lookup2902 c with
  | p2902_at _ d => Some (m_subscribedVec d)
  | _ => None
  end.

Definition set_value (c : NimBLECharacteristic) (v : NimBLEValue.t)
    : NimBLECharacteristic :=
  {| m_uuid := m_uuid c; m_handle := m_handle c;
     m_properties := m_properties c; m_pService := m_pService c;
     m_pSemaphore := m_pSemaphore c; m_value := v;
     m_dscVec := m_dscVec c |}.

Definition set_dscVec (c : NimBLECharacteristic) (l : list NimBLEDescriptor)
    : NimBLECharacteristic :=
  {| m_uuid := m_uuid c; m_handle := m_handle c;
     m_properties := m_properties c; m_pService := m_pService c;
     m_pSemaphore := m_pSemaphore c; m_value := m_value c;
     m_dscVec := l |}.

(** ** Access events: [handleGapEvent] *)

Inductive access_op : Type :=
| BLE_GATT_ACCESS_OP_READ_CHR
| BLE_GATT_ACCESS_OP_WRITE_CHR
| BLE_GATT_ACCESS_OP_READ_DSC
| BLE_GATT_ACCESS_OP_WRITE_DSC.

(** One buffer of an mbuf chain; [om_len] is the number of bytes at
    [om_data]. *)
Record os_mbuf : Type := mk_mbuf {
  om_data : list byte;
  om_pkthdr_len : Z
}.

Definition om_len (m : os_mbuf) : Z := Z.of_nat (length (om_data m)).

(** [ble_gatt_access_ctxt]: the operation, the head buffer [om], the
    buffers reached from it through [SLIST_NEXT], and [chr->uuid]. *)
Record ble_gatt_access_ctxt : Type := mk_ctxt {
  op : access_op;
  om : os_mbuf;
  om_next : list os_mbuf;
  chr_uuid : NimBLEUUID
}.

(** The [while (next != NULL)] loop of the write case. *)
Fixpoint addParts (v : NimBLEValue.t) (next : list os_mbuf) : NimBLEValue.t :=
  match next with
  | [] => v
  | n :: rest =>
      addParts (NimBLEValue.addPart v (firstn (Z.to_nat (om_len n)) (om_data n)))
               rest
  end.

Definition handleGapEvent (h : Host) (conn_handle attr_handle : Z)
    (ctxt : ble_gatt_access_ctxt) (pCharacteristic : NimBLECharacteristic)
    : Z * NimBLECharacteristic * list action :=
  if uuid_eqb (chr_uuid ctxt) (getUUID pCharacteristic) then
    match op ctxt with
    | BLE_GATT_ACCESS_OP_READ_CHR =>
        let cb := if om_pkthdr_len (om ctxt) >? 8 then [onRead] else [] in
        let data :=
          firstn (Z.to_nat (NimBLEValue.getLength (m_value pCharacteristic)))
                 (getData pCharacteristic) in
        let rc := os_mbuf_append h data in
        (if rc =? 0 then 0 else BLE_ATT_ERR_INSUFFICIENT_RES,
         pCharacteristic, cb ++ [mbuf_append data])
    | BLE_GATT_ACCESS_OP_WRITE_CHR =>
        if om_len (om ctxt) >? BLE_ATT_ATTR_MAX_LEN then
          (BLE_ATT_ERR_INVALID_ATTR_VALUE_LEN, pCharacteristic, [])
        else
          let v := NimBLEValue.addPart (m_value pCharacteristic)
                     (firstn (Z.to_nat (om_len (om ctxt))) (om_data (om ctxt))) in
          let v := addParts v (om_next ctxt) in
          let v := NimBLEValue.commit v in
          (0, set_value pCharacteristic v, [onWrite])
    | _ => (BLE_ATT_ERR_UNLIKELY, pCharacteristic, [])
    end
  else (BLE_ATT_ERR_UNLIKELY, pCharacteristic, []).

(** ** Subscription events: [setSubscribe] *)

(** The [subscribe] member of [ble_gap_event]; [cur_notify] and
    [cur_indicate] are one-bit fields. *)
Record ble_gap_event : Type := mk_subscribe {
  conn_handle : Z;
  cur_notify : bool;
  cur_indicate : bool
}.

(** [subVal] after the two [|=]. *)
Definition subVal_of (event : ble_gap_event) : Z :=
  let subVal := 0 in
  let subVal :=
    if cur_notify event then uint16_t (Z.lor subVal NIMBLE_DESC_FLAG_NOTIFY)
    else subVal in
  let subVal :=
    if cur_indicate event then uint16_t (Z.lor subVal NIMBLE_DESC_FLAG_INDICATE)
    else subVal in
  subVal.

(** The search loop: the position of the first entry of the connection, the
    length of the vector for [end()]. *)
Fixpoint find_conn (vec : list chr_sub_status_t) (conn : Z) : nat :=
  match vec with
  | [] => 0%nat
  | it :: rest =>
      if conn_id it =? conn then 0%nat else S (find_conn rest conn)
  end.

(** Lines 281-302: insert, update in place or erase. *)
Definition update_subscribedVec (vec : list chr_sub_status_t)
    (conn subVal : Z) : list chr_sub_status_t :=
  let it := find_conn vec conn in
  if subVal >? 0 then
    if (it =? length vec)%nat then vec ++ [mk_sub conn subVal]
    else alter (fun e => mk_sub (conn_id e) subVal) it vec
  else if negb (it =? length vec)%nat then delete it vec
  else vec.

Definition setSubscribe (c : NimBLECharacteristic) (event : ble_gap_event)
    : outcome (NimBLECharacteristic * list action) :=
  let subVal := subVal_of event in
  let t_give :=
    match m_pSemaphore c with
    | Some _ =>
        [sem_give (if test subVal NIMBLE_DESC_FLAG_INDICATE then give_int 0
                   else give_status ERROR_INDICATE_DISABLED)]
    | None => []
    end in
  let t := t_give ++ [log LOGI "New subscribe value for conn: %d val: %d"] in
  match lookup2902 c with
  | p2902_null =>
      Returned (c, t ++ [log LOGE "No 2902 descriptor found for %s"])
  | p2902_bad_cast => UndefinedBehaviour t
  | p2902_at p d =>
      let d' :=
        {| m_subscribedVec :=
             update_subscribedVec (m_subscribedVec d)
                                  (uint16_t (conn_handle event)) subVal;
           notifications := test subVal NIMBLE_DESC_FLAG_NOTIFY;
           indications := test subVal NIMBLE_DESC_FLAG_INDICATE |} in
      Returned (set_dscVec c (<[p := Desc2902 d']> (m_dscVec c)),
                t ++ [dsc_onWrite])
  end.

(** ** Sending: [notify] and [indicate] *)

(** The two [continue] tests of the loop body: the peer is not connected
    (MTU 0) or the entry has no flag set. *)
Definition skipped (srv : NimBLEServer) (it : chr_sub_status_t) : bool :=
  (uint16_t (getPeerMTU srv (conn_id it)) =? 0) || (sub_val it =? 0).

(** The body of the loop over [p2902->m_subscribedVec] for one entry [it]:
    the value of [is_notification] it leaves and the calls it makes. *)
Definition notify_one (c : NimBLECharacteristic) (h : Host)
    (srv : NimBLEServer) (is_notification : bool) (it : chr_sub_status_t)
    : bool * list action :=
  let _mtu := uint16_t (getPeerMTU srv (conn_id it)) in
  let length := size_t (Z.of_nat (length (getValue c))) in
  let data := getValue c in
  if _mtu =? 0 then (is_notification, [])
  else if sub_val it =? 0 then (is_notification, [])
  else
    let t1 :=
      if length >? size_t (_mtu - 3)
      then [log LOGW "- Truncating to %d bytes (maximum notify size)"]
      else [] in
    let '(is_notification, t2) :=
      if is_notification && negb (test (sub_val it) NIMBLE_DESC_FLAG_NOTIFY)
      then (false,
            [log LOGW "Sending notification to client subscribed to indications, sending indication instead"])
      else (is_notification, []) in
    let '(is_notification, t3) :=
      if negb is_notification && negb (test (sub_val it) NIMBLE_DESC_FLAG_INDICATE)
      then (true,
            [log LOGW "Sending indication to client subscribed to notification, sending notification instead"])
      else (is_notification, []) in
    (* om = ble_hs_mbuf_from_flat(data, length) *)
    let om := firstn (Z.to_nat length) data in
    let t4 :=
      match m_pSemaphore c, is_notification with
      | Some _, false =>
          let rc := ble_gattc_indicate_custom h (conn_id it) (m_handle c) om in
          let '(rc, statusRC, t_sem) :=
            if negb (rc =? 0)
            then (rc, Some ERROR_GATT, [sem_give give_default])
            else (semaphore_wait h (conn_id it), None, [sem_wait]) in
          let '(rc, statusRC) :=
            if (rc =? 0) || (rc =? BLE_HS_EDONE) then (0, SUCCESS_INDICATE)
            else if rc =? BLE_HS_ETIMEOUT then (rc, ERROR_INDICATE_TIMEOUT)
            else (rc, ERROR_INDICATE_FAILURE) in
          [sem_take "indicate"; gattc_indicate (conn_id it) (m_handle c) om]
            ++ t_sem ++ [onStatus statusRC rc]
      | _, _ =>
          let rc := ble_gattc_notify_custom h (conn_id it) (m_handle c) om in
          let statusRC := if rc =? 0 then SUCCESS_NOTIFY else ERROR_GATT in
          [gattc_notify (conn_id it) (m_handle c) om; onStatus statusRC rc]
      end in
    (is_notification, t1 ++ t2 ++ t3 ++ t4).

(** The loop: [is_notification] is the function's parameter, so what one
    iteration assigns is what the next one reads. *)
Fixpoint notify_loop (c : NimBLECharacteristic) (h : Host)
    (srv : NimBLEServer) (is_notification : bool)
    (vec : list chr_sub_status_t) : list action :=
  match vec with
  | [] => []
  | it :: rest =>
      let '(is_notification, t) := notify_one c h srv is_notification it in
      t ++ notify_loop c h srv is_notification rest
  end.

Definition notify (c : NimBLECharacteristic) (h : Host)
    (is_notification : bool) : outcome (list action) :=
  match getService c with
  | None => AssertFailed "getService() != nullptr"
  | Some svc =>
      match getServer svc with
      | None => AssertFailed "getService()->getServer() != nullptr"
      | Some srv =>
          if getConnectedCount srv =? 0 then Returned []
          else
            match lookup2902 c with
            | p2902_at _ p2902 =>
                Returned (onNotify ::
                          notify_loop c h srv is_notification
                                      (m_subscribedVec p2902))
            | _ => UndefinedBehaviour [onNotify]
            end
      end
  end.

Definition indicate (c : NimBLECharacteristic) (h : Host)
    : outcome (list action) :=
  notify c h false.

(** ** [setValue] *)

(** [setValue(const uint8_t* data, size_t length)]: [data] holds the
    [length] bytes the pointer designates. *)
Definition setValue (c : NimBLECharacteristic) (data : list byte)
    : NimBLECharacteristic * list action :=
  let length := Z.of_nat (length data) in
  if length >? BLE_ATT_ATTR_MAX_LEN then
    (c, [log LOGE "Size %d too large, must be no bigger than %d"])
  else
    (set_value c (NimBLEValue.setValue (m_value c)
                    (firstn (Z.to_nat length) data)),
     []).

(** ** Projections of a trace *)

(** Payloads handed to the transport, with the connection. *)
Fixpoint sent (t : list action) : list (Z * list byte) :=
  match t with
  | [] => []
  | gattc_indicate conn _ om :: rest => (conn, om) :: sent rest
  | gattc_notify conn _ om :: rest => (conn, om) :: sent rest
  | _ :: rest => sent rest
  end.

(** Status callbacks, in order. *)
Fixpoint statuses (t : list action) : list (Status * Z) :=
  match t with
  | [] => []
  | onStatus s code :: rest => (s, code) :: statuses rest
  | _ :: rest => statuses rest
  end.

(** Values the semaphore is given. *)
Fixpoint gives (t : list action) : list give_arg :=
  match t with
  | [] => []
  | sem_give v :: rest => v :: gives rest
  | _ :: rest => gives rest
  end.

(** Connections sent an indication, and connections sent a notification. *)
Fixpoint indicated (t : list action) : list Z :=
  match t with
  | [] => []
  | gattc_indicate conn _ _ :: rest => conn :: indicated rest
  | _ :: rest => indicated rest
  end.

Fixpoint notified (t : list action) : list Z :=
  match t with
  | [] => []
  | gattc_notify conn _ _ :: rest => conn :: notified rest
  | _ :: rest => notified rest
  end.

Fixpoint errors_logged (t : list action) : list string :=
  match t with
  | [] => []
  | log LOGE msg :: rest => msg :: errors_logged rest
  | _ :: rest => errors_logged rest
  end.

(** The trace of a call to [setSubscribe], however it ends. *)
Definition subscribe_trace (o : outcome (NimBLECharacteristic * list action))
    : list action :=
  match o with
  | Returned (_, t) => t
  | AssertFailed _ => []
  | UndefinedBehaviour t => t
  end.

(** ** [setValue] for strings and integers *)

(** Conversion of an integer to a [uint8_t] array element. *)
Definition to_uint8 (z : Z) : byte :=
  match Byte.of_N (Z.to_N (uint8_t z)) with
  | Some b => b
  | None => x00
  end.

(** [int] is 32 bits wide, two's complement. *)
Definition int32_t (z : Z) : Z := (z + 2 ^ 31) mod 2 ^ 32 - 2 ^ 31.

(** [setValue(const std::string &value)] passes [value.data()] and
    [value.length()] on. *)
Definition setValue_string (c : NimBLECharacteristic) (value : list byte)
    : NimBLECharacteristic * list action :=
  setValue c value.

(** [setValue(uint16_t& data16)] *)
Definition setValue_uint16 (c : NimBLECharacteristic) (data16 : Z)
    : NimBLECharacteristic * list action :=
  let data16 := uint16_t data16 in
  let temp := [to_uint8 data16; to_uint8 (Z.shiftr data16 8)] in
  setValue c (firstn 2 temp).

(** [setValue(uint32_t& data32)] *)
Definition setValue_uint32 (c : NimBLECharacteristic) (data32 : Z)
    : NimBLECharacteristic * list action :=
  let data32 := uint32_t data32 in
  let temp := [to_uint8 data32; to_uint8 (Z.shiftr data32 8);
               to_uint8 (Z.shiftr data32 16); to_uint8 (Z.shiftr data32 24)] in
  setValue c (firstn 4 temp).

(** [setValue(int& data32)]; [>>] on a negative [int] is the arithmetic
    shift of the compilers the library is built with. *)
Definition setValue_int (c : NimBLECharacteristic) (data32 : Z)
    : NimBLECharacteristic * list action :=
  let data32 := int32_t data32 in
  let temp := [to_uint8 data32; to_uint8 (Z.shiftr data32 8);
               to_uint8 (Z.shiftr data32 16); to_uint8 (Z.shiftr data32 24)] in
  setValue c (firstn 4 temp).

(** The unsigned integer a byte sequence holds, least significant byte
    first. *)
Fixpoint le_value (l : list byte) : Z :=
  match l with
  | [] => 0
  | b :: rest => Z.of_N (Byte.to_N b) + 256 * le_value rest
  end.

(** ** Runs of calls on one characteristic *)

Inductive call : Type :=
| call_setValue (data : list byte)
| call_setSubscribe (event : ble_gap_event)
| call_createDescriptor (uuid : NimBLEUUID) (properties max_len : Z)
| call_handleGapEvent (h : Host) (conn_handle attr_handle : Z)
                      (ctxt : ble_gatt_access_ctxt).

(** The object a call leaves, [None] when the call does not return. *)
Definition do_call (c : NimBLECharacteristic) (k : call)
    : option NimBLECharacteristic :=
  match k with
  | call_setValue data => Some (fst (setValue c data))
  | call_setSubscribe event =>
      match setSubscribe c event with
      | Returned (c', _) => Some c'
      | _ => None
      end
  | call_createDescriptor uuid properties max_len =>
      match createDescriptor c uuid properties max_len with
      | Returned (_, c') => Some c'
      | _ => None
      end
  | call_handleGapEvent h conn_handle attr_handle ctxt =>
      Some (snd (fst (handleGapEvent h conn_handle attr_handle ctxt c)))
  end.

Fixpoint do_calls (c : NimBLECharacteristic) (ks : list call)
    : option NimBLECharacteristic :=
  match ks with
  | [] => Some c
  | k :: rest =>
      match do_call c k with
      | Some c' => do_calls c' rest
      | None => None
      end
  end.

(** ** More projections of a trace *)

Fixpoint takes (t : list action) : nat :=
  match t with
  | [] => 0%nat
  | sem_take _ :: rest => S (takes rest)
  | _ :: rest => takes rest
  end.

Fixpoint waits (t : list action) : nat :=
  match t with
  | [] => 0%nat
  | sem_wait :: rest => S (waits rest)
  | _ :: rest => waits rest
  end.

(** Calls of the characteristic's read, write and pre-send callbacks. *)
Fixpoint onWrites (t : list action) : nat :=
  match t with
  | [] => 0%nat
  | onWrite :: rest => S (onWrites rest)
  | _ :: rest => onWrites rest
  end.


(** Calls of the 2902 descriptor's write callback. *)
Fixpoint dsc_onWrites (t : list action) : nat :=
  match t with
  | [] => 0%nat
  | dsc_onWrite :: rest => S (dsc_onWrites rest)
  | _ :: rest => dsc_onWrites rest
  end.


(** The bytes of a whole mbuf chain, in chain order. *)
Definition chain_bytes (ctxt : ble_gatt_access_ctxt) : list byte :=
  om_data (om ctxt) ++ concat (om_data <$> om_next ctxt).

(** The subscribers a pass does not skip. *)
Definition processed (srv : NimBLEServer) (vec : list chr_sub_status_t)
    : list chr_sub_status_t :=
  filter (fun it => skipped srv it = false) vec.

(** ** Scenarios

    Objects built through the public calls, used to run the code on
    concrete inputs. *)

(** A server with one connected peer; every connection negotiated the
    default ATT MTU of 23. *)
Definition server_mtu23 : NimBLEServer := mkServer 1 (fun _ => 23).

Definition service_mtu23 : option NimBLEService :=
  Some (mkService (Some server_mtu23)).

(** A host whose calls all succeed and whose peers confirm. *)
Definition host_ok : Host :=
  mkHost (fun _ _ _ => 0) (fun _ _ _ => 0) (fun _ => 0) (fun _ => 0).

(** A host that is out of buffers: [ble_gattc_indicate_custom] returns
    [BLE_HS_ENOMEM] (6). *)
Definition host_indicate_enomem : Host :=
  mkHost (fun _ _ _ => 6) (fun _ _ _ => 0) (fun _ => 0) (fun _ => 0).

Definition then_createDescriptor (c : NimBLECharacteristic)
    (uuid : NimBLEUUID) : NimBLECharacteristic :=
  match createDescriptor c uuid 0 0 with
  | Returned (_, c') => c'
  | _ => c
  end.

Definition then_setSubscribe (c : NimBLECharacteristic)
    (event : ble_gap_event) : NimBLECharacteristic :=
  match setSubscribe c event with
  | Returned (c', _) => c'
  | _ => c
  end.

(** Notify and indicate properties, a 2902 descriptor, no subscriber. *)
Definition chr_ni : NimBLECharacteristic :=
  then_createDescriptor
    (construct (UUID16 0x2a37)
               (Z.lor BLE_GATT_CHR_F_NOTIFY BLE_GATT_CHR_F_INDICATE)
               service_mtu23)
    uuid2902.

(** Notify property only and no descriptor at all. *)
Definition chr_no2902 : NimBLECharacteristic :=
  construct (UUID16 0x2a37) BLE_GATT_CHR_F_NOTIFY service_mtu23.

(** Connection 1 enabled notifications; the value has 30 bytes. *)
Definition chr_long_value : NimBLECharacteristic :=
  fst (setValue (then_setSubscribe chr_ni (mk_subscribe 1 true false))
                (repeat "x"%byte 30)).

(** Connection 1 enabled indications only. *)
Definition chr_indicate_only : NimBLECharacteristic :=
  fst (setValue (then_setSubscribe chr_ni (mk_subscribe 1 false true))
                ["a"%byte; "b"%byte]).

(** Connection 1 enabled indications only, then connection 2 enabled both. *)
Definition chr_ind_then_both : NimBLECharacteristic :=
  then_setSubscribe
    (then_setSubscribe chr_ni (mk_subscribe 1 false true))
    (mk_subscribe 2 true true).

(** The same two subscribers, subscribed in the other order. *)
Definition chr_both_then_ind : NimBLECharacteristic :=
  then_setSubscribe
    (then_setSubscribe chr_ni (mk_subscribe 2 true true))
    (mk_subscribe 1 false true).

(** A write whose first buffer has one byte and whose second has 513. *)
Definition write_long_second : ble_gatt_access_ctxt :=
  mk_ctxt BLE_GATT_ACCESS_OP_WRITE_CHR
          (mk_mbuf ["h"%byte] 16)
          [mk_mbuf (repeat "t"%byte 513) 0]
          (UUID16 0x2a37).

(** ** Predicates used in the statements *)

(** What a table with unique connection ids looks like after connection
    [conn] wrote the non-zero flags [subVal]: its entry carries them, the
    others are untouched. *)
Definition upsert_entry (conn subVal : Z) (e : chr_sub_status_t)
    : chr_sub_status_t :=
  if conn_id e =? conn then mk_sub conn subVal else e.

(** The shape of every descriptor vector the code builds: a descriptor
    answering to UUID 0x2902 is a [NimBLE2902], and there is at most one. *)
Definition dscVec_ok (l : list NimBLEDescriptor) : Prop :=
  (count2902 l <= 1)%nat
  /\ (find_descriptor l uuid2902 = None -> count2902 l = 0%nat)
  /\ (forall p, find_descriptor l uuid2902 = Some p ->
        exists d, l !! p = Some (Desc2902 d)).

(** What every call keeps true of the object: nothing is pending in the
    write accumulator, the descriptor vector has the shape [dscVec_ok], and
    no subscriber table lists a connection twice. *)
Definition chr_ok (c : NimBLECharacteristic) : Prop :=
  NimBLEValue.m_accumulation (m_value c) = []
  /\ dscVec_ok (m_dscVec c)
  /\ (forall p d, m_dscVec c !! p = Some (Desc2902 d) ->
        NoDup (conn_id <$> m_subscribedVec d)).

(** A status and the code passed with it agree: a success comes with code
    0, [ERROR_GATT] and [ERROR_INDICATE_FAILURE] with a non-zero code,
    [ERROR_INDICATE_TIMEOUT] with [BLE_HS_ETIMEOUT]; the three remaining
    statuses do not occur. *)
Definition status_agrees (sc : Status * Z) : Prop :=
  match fst sc with
  | SUCCESS_INDICATE | SUCCESS_NOTIFY => snd sc = 0
  | ERROR_GATT => snd sc <> 0
  | ERROR_INDICATE_TIMEOUT => snd sc = BLE_HS_ETIMEOUT
  | ERROR_INDICATE_FAILURE =>
      snd sc <> 0 /\ snd sc <> BLE_HS_EDONE /\ snd sc <> BLE_HS_ETIMEOUT
  | ERROR_INDICATE_DISABLED | ERROR_NOTIFY_DISABLED | ERROR_NO_CLIENT => False
  end.

(** The release rule as the specification words it, on one event: the
    semaphore is given the "indicate disabled" status when the new flags
    lack indicate, and is not given at all when they include it. *)
Definition gate_released_only_on_disable (c : NimBLECharacteristic)
    (event : ble_gap_event) : Prop :=
  m_pSemaphore c <> None ->
  let t := subscribe_trace (setSubscribe c event) in
  (cur_indicate event = false -> gives t = [give_status ERROR_INDICATE_DISABLED])
  /\ (cur_indicate event = true -> gives t = []).

(** * Properties *)

(** ** Integer and flag facts *)

Lemma uint16_uint8 (z : Z) : uint8_t (uint16_t z) = uint8_t z.
Proof.
  unfold uint8_t, uint16_t.
  apply Z.mod_mod_divide. exists (2 ^ 8). reflexivity.
Qed.

Lemma uint8_land (z : Z) : uint8_t z = Z.land z 0xff.
Proof.
  unfold uint8_t. change 0xff with (Z.ones 8).
  rewrite Z.land_ones by lia. reflexivity.
Qed.

Lemma uuid_eqb_eq (a b : NimBLEUUID) : uuid_eqb a b = true <-> a = b.
Proof.
  destruct a, b; simpl; split; intros H;
    try discriminate; try (apply Z.eqb_eq in H; congruence);
    try (inversion H; subst; apply Z.eqb_refl).
Qed.

Lemma uuid_eqb_refl (a : NimBLEUUID) : uuid_eqb a a = true.
Proof. apply uuid_eqb_eq. reflexivity. Qed.

(** ** Properties accessor *)

(** C9: whatever 16-bit properties the characteristic is constructed with,
    [getProperties] returns them modulo 2^8, that is, their low byte: the
    bits above it are dropped by the accessor (the member keeps all 16). *)
Theorem getProperties_low_byte (uuid : NimBLEUUID) (p : Z)
    (svc : option NimBLEService) :
  getProperties (construct uuid p svc) = p mod 2 ^ 8
  /\ getProperties (construct uuid p svc) = Z.land p 0xff
  /\ m_properties (construct uuid p svc) = p mod 2 ^ 16.
Proof.
  unfold getProperties, construct; simpl.
  rewrite uint16_uint8.
  split; [reflexivity | split; [apply uint8_land | reflexivity]].
Qed.

(** ** [setValue] *)

Lemma firstn_length_all {A} (l : list A) :
  firstn (Z.to_nat (Z.of_nat (length l))) l = l.
Proof. rewrite Nat2Z.id. apply firstn_all. Qed.

(** C8: a byte sequence longer than the maximum attribute length leaves
    the characteristic (its committed value and length included) exactly as
    it was, with only an error logged; a sequence of at most the maximum
    length becomes the committed value, byte for byte. *)
Theorem setValue_bounded (c : NimBLECharacteristic) (data : list byte) :
  (BLE_ATT_ATTR_MAX_LEN < Z.of_nat (length data) ->
     fst (setValue c data) = c
     /\ getValue (fst (setValue c data)) = getValue c
     /\ getDataLength (fst (setValue c data)) = getDataLength c
     /\ errors_logged (snd (setValue c data)) <> [])
  /\ (Z.of_nat (length data) <= BLE_ATT_ATTR_MAX_LEN ->
     getValue (fst (setValue c data)) = data
     /\ getDataLength (fst (setValue c data)) = Z.of_nat (length data)
     /\ snd (setValue c data) = []).
Proof.
  unfold setValue. split; intros H.
  - destruct (Z.gtb_spec (Z.of_nat (length data)) BLE_ATT_ATTR_MAX_LEN);
      [simpl; repeat split; discriminate | lia].
  - destruct (Z.gtb_spec (Z.of_nat (length data)) BLE_ATT_ATTR_MAX_LEN);
      [lia |].
    unfold getValue, getDataLength, NimBLEValue.getLength; simpl.
    rewrite firstn_length_all. repeat split.
Qed.

Lemma setValue_bounded_witness :
  fst (setValue chr_indicate_only (repeat "x"%byte 513)) = chr_indicate_only
  /\ getValue (fst (setValue chr_indicate_only ["o"%byte; "k"%byte]))
     = ["o"%byte; "k"%byte].
Proof.
  split.
  - apply (setValue_bounded chr_indicate_only (repeat "x"%byte 513)).
    vm_compute. reflexivity.
  - apply (setValue_bounded chr_indicate_only ["o"%byte; "k"%byte]).
    vm_compute. discriminate.
Defined.

(** ** The subscriber table *)

Section SubscribedVec.

Variable conn : Z.
Variable subVal : Z.

Implicit Types (vec : list chr_sub_status_t) (e : chr_sub_status_t).

Lemma find_conn_absent vec :
  conn ∉ conn_id <$> vec -> find_conn vec conn = length vec.
Proof.
  induction vec as [|e rest IH]; simpl; [reflexivity |].
  intros Hnot. apply not_elem_of_cons in Hnot as [Hne Hrest].
  destruct (Z.eqb_spec (conn_id e) conn); [congruence |].
  f_equal. apply IH, Hrest.
Qed.

Lemma find_conn_present vec :
  conn ∈ conn_id <$> vec -> (find_conn vec conn < length vec)%nat.
Proof.
  induction vec as [|e rest IH]; simpl.
  - intros H. inversion H.
  - intros H. destruct (Z.eqb_spec (conn_id e) conn); [lia |].
    apply elem_of_cons in H as [H | H]; [congruence |].
    specialize (IH H). lia.
Qed.

Lemma upsert_absent vec :
  conn ∉ conn_id <$> vec -> upsert_entry conn subVal <$> vec = vec.
Proof.
  induction vec as [|e rest IH]; simpl; [reflexivity |].
  intros Hnot. apply not_elem_of_cons in Hnot as [Hne Hrest].
  unfold upsert_entry at 1.
  destruct (Z.eqb_spec (conn_id e) conn); [congruence |].
  f_equal. apply IH, Hrest.
Qed.

Lemma filter_other_absent vec :
  conn ∉ conn_id <$> vec -> filter (fun e => conn_id e <> conn) vec = vec.
Proof.
  induction vec as [|e rest IH]; simpl; [reflexivity |].
  intros Hnot. apply not_elem_of_cons in Hnot as [Hne Hrest].
  rewrite filter_cons_True by congruence.
  f_equal. apply IH, Hrest.
Qed.

Lemma filter_same_absent vec :
  conn ∉ conn_id <$> vec -> filter (fun e => conn_id e = conn) vec = [].
Proof.
  induction vec as [|e rest IH]; simpl; [reflexivity |].
  intros Hnot. apply not_elem_of_cons in Hnot as [Hne Hrest].
  rewrite filter_cons_False by congruence.
  apply IH, Hrest.
Qed.

(** With unique connection ids, writing through the iterator the search
    loop stopped at rewrites every entry of the connection. *)
Lemma alter_first_match vec :
  NoDup (conn_id <$> vec) ->
  alter (fun e => mk_sub (conn_id e) subVal) (find_conn vec conn) vec
  = upsert_entry conn subVal <$> vec.
Proof.
  induction vec as [|e rest IH]; simpl; [reflexivity |].
  intros Hnd. apply list.NoDup_cons in Hnd as [Hnot Hnd].
  unfold upsert_entry at 1.
  destruct (Z.eqb_spec (conn_id e) conn) as [Heq | Hne]; simpl.
  - rewrite upsert_absent by (rewrite <- Heq; exact Hnot).
    rewrite Heq. reflexivity.
  - f_equal. apply IH, Hnd.
Qed.

Lemma delete_first_match vec :
  NoDup (conn_id <$> vec) ->
  delete (find_conn vec conn) vec = filter (fun e => conn_id e <> conn) vec.
Proof.
  induction vec as [|e rest IH]; simpl; [reflexivity |].
  intros Hnd. apply list.NoDup_cons in Hnd as [Hnot Hnd].
  destruct (Z.eqb_spec (conn_id e) conn) as [Heq | Hne]; simpl.
  - rewrite filter_cons_False by (intros H; apply H, Heq).
    rewrite filter_other_absent by (rewrite <- Heq; exact Hnot).
    reflexivity.
  - rewrite filter_cons_True by exact Hne.
    f_equal. apply IH, Hnd.
Qed.

Lemma upsert_ids vec :
  conn_id <$> (upsert_entry conn subVal <$> vec) = conn_id <$> vec.
Proof.
  induction vec as [|e rest IH]; csimpl; [reflexivity |].
  rewrite IH. f_equal. unfold upsert_entry.
  destruct (Z.eqb_spec (conn_id e) conn); simpl; congruence.
Qed.

Lemma upsert_filter_same vec :
  NoDup (conn_id <$> vec) -> conn ∈ conn_id <$> vec ->
  filter (fun e => conn_id e = conn) (upsert_entry conn subVal <$> vec)
  = [mk_sub conn subVal].
Proof.
  induction vec as [|e rest IH]; simpl.
  - intros _ H. inversion H.
  - intros Hnd Hin. apply list.NoDup_cons in Hnd as [Hnot Hnd].
    unfold upsert_entry at 1.
    destruct (Z.eqb_spec (conn_id e) conn) as [Heq | Hne].
    + rewrite filter_cons_True by reflexivity.
      rewrite upsert_absent by (rewrite <- Heq; exact Hnot).
      rewrite filter_same_absent by (rewrite <- Heq; exact Hnot).
      reflexivity.
    + rewrite filter_cons_False by exact Hne.
      apply elem_of_cons in Hin as [Hin | Hin]; [congruence |].
      apply IH; assumption.
Qed.

Lemma upsert_upsert vec :
  upsert_entry conn subVal <$> (upsert_entry conn subVal <$> vec)
  = upsert_entry conn subVal <$> vec.
Proof.
  induction vec as [|e rest IH]; csimpl; [reflexivity |].
  rewrite IH. f_equal. unfold upsert_entry.
  destruct (Z.eqb_spec (conn_id e) conn) as [Heq | Hne]; simpl.
  - rewrite Z.eqb_refl. reflexivity.
  - destruct (Z.eqb_spec (conn_id e) conn); congruence.
Qed.

Lemma filter_other_ids vec :
  conn ∉ conn_id <$> filter (fun e => conn_id e <> conn) vec.
Proof.
  intros Hin. apply list_elem_of_fmap in Hin as (e & Heq & Hin).
  apply list_elem_of_filter in Hin as [Hne _]. congruence.
Qed.

Lemma filter_other_NoDup vec :
  NoDup (conn_id <$> vec) ->
  NoDup (conn_id <$> filter (fun e => conn_id e <> conn) vec).
Proof.
  induction vec as [|e rest IH]; simpl; [intros; constructor |].
  intros Hnd. apply list.NoDup_cons in Hnd as [Hnot Hnd].
  destruct (decide (conn_id e <> conn)).
  - rewrite filter_cons_True by assumption. simpl.
    apply list.NoDup_cons. split; [| apply IH, Hnd].
    intros Hin. apply Hnot.
    apply list_elem_of_fmap in Hin as (e' & Heq & Hin).
    apply list_elem_of_filter in Hin as [_ Hin].
    apply list_elem_of_fmap. exists e'. split; assumption.
  - rewrite filter_cons_False by assumption. apply IH, Hnd.
Qed.

(** What lines 281-302 compute, on a table with unique connection ids. *)
Lemma update_subscribedVec_insert vec :
  0 < subVal -> conn ∉ conn_id <$> vec ->
  update_subscribedVec vec conn subVal = vec ++ [mk_sub conn subVal].
Proof.
  intros Hpos Habs. unfold update_subscribedVec.
  destruct (Z.gtb_spec subVal 0); [| lia].
  rewrite find_conn_absent by exact Habs.
  rewrite Nat.eqb_refl. reflexivity.
Qed.

Lemma update_subscribedVec_update vec :
  0 < subVal -> NoDup (conn_id <$> vec) -> conn ∈ conn_id <$> vec ->
  update_subscribedVec vec conn subVal = upsert_entry conn subVal <$> vec.
Proof.
  intros Hpos Hnd Hin. unfold update_subscribedVec.
  destruct (Z.gtb_spec subVal 0); [| lia].
  pose proof (find_conn_present vec Hin) as Hlt.
  destruct (Nat.eqb_spec (find_conn vec conn) (length vec)); [lia |].
  apply alter_first_match, Hnd.
Qed.

Lemma update_subscribedVec_remove vec :
  subVal <= 0 -> NoDup (conn_id <$> vec) ->
  update_subscribedVec vec conn subVal
  = filter (fun e => conn_id e <> conn) vec.
Proof.
  intros Hz Hnd. unfold update_subscribedVec.
  destruct (Z.gtb_spec subVal 0); [lia |].
  destruct (Nat.eqb_spec (find_conn vec conn) (length vec)) as [Heq | Hne];
    simpl.
  - symmetry. apply filter_other_absent. intros Hin.
    pose proof (find_conn_present vec Hin). lia.
  - apply delete_first_match, Hnd.
Qed.

Lemma update_subscribedVec_NoDup vec :
  NoDup (conn_id <$> vec) ->
  NoDup (conn_id <$> update_subscribedVec vec conn subVal).
Proof.
  intros Hnd. destruct (Z_lt_le_dec 0 subVal) as [Hpos | Hz].
  - destruct (decide (conn ∈ conn_id <$> vec)) as [Hin | Habs].
    + rewrite update_subscribedVec_update by assumption.
      rewrite upsert_ids. exact Hnd.
    + rewrite update_subscribedVec_insert by assumption.
      rewrite fmap_app. simpl. apply list.NoDup_app. repeat split.
      * exact Hnd.
      * intros x Hx Hx'. apply list_elem_of_singleton in Hx'. congruence.
      * apply NoDup_singleton.
  - rewrite update_subscribedVec_remove by assumption.
    apply filter_other_NoDup, Hnd.
Qed.

Lemma update_subscribedVec_twice vec :
  NoDup (conn_id <$> vec) ->
  update_subscribedVec (update_subscribedVec vec conn subVal) conn subVal
  = update_subscribedVec vec conn subVal.
Proof.
  intros Hnd.
  pose proof (update_subscribedVec_NoDup vec Hnd) as Hnd'.
  destruct (Z_lt_le_dec 0 subVal) as [Hpos | Hz].
  - rewrite (update_subscribedVec_update _ Hpos Hnd').
    + destruct (decide (conn ∈ conn_id <$> vec)) as [Hin | Habs].
      * rewrite update_subscribedVec_update by assumption.
        apply upsert_upsert.
      * rewrite update_subscribedVec_insert by assumption.
        rewrite fmap_app, upsert_absent by exact Habs. simpl.
        unfold upsert_entry. simpl. rewrite Z.eqb_refl. reflexivity.
    + destruct (decide (conn ∈ conn_id <$> vec)) as [Hin | Habs].
      * rewrite update_subscribedVec_update by assumption.
        rewrite upsert_ids. exact Hin.
      * rewrite update_subscribedVec_insert by assumption.
        rewrite fmap_app. apply elem_of_app. right. simpl. left.
  - rewrite (update_subscribedVec_remove _ Hz Hnd').
    rewrite update_subscribedVec_remove by assumption.
    apply filter_other_absent, filter_other_ids.
Qed.

End SubscribedVec.

(** ** [setSubscribe] *)

Lemma find_descriptor_insert (l : list NimBLEDescriptor) (p : nat)
    (d d' : NimBLEDescriptor) (uuid : NimBLEUUID) :
  l !! p = Some d -> dsc_getUUID d' = dsc_getUUID d ->
  find_descriptor (<[p := d']> l) uuid = find_descriptor l uuid.
Proof.
  revert p. induction l as [|x rest IH]; intros p Hp Hu; [reflexivity |].
  destruct p as [|p]; simpl in *.
  - inversion Hp; subst. rewrite Hu. reflexivity.
  - rewrite (IH p Hp Hu). reflexivity.
Qed.

Lemma lookup2902_at (c : NimBLECharacteristic) (p : nat) (d : NimBLE2902) :
  lookup2902 c = p2902_at p d ->
  getDescriptorByUUID c uuid2902 = Some p
  /\ m_dscVec c !! p = Some (Desc2902 d).
Proof.
  unfold lookup2902. destruct (getDescriptorByUUID c uuid2902) as [q|];
    [| discriminate].
  destruct (m_dscVec c !! q) as [[d0| |]|] eqn:Hq; try discriminate.
  intros H. inversion H; subst. split; [reflexivity | exact Hq].
Qed.

Lemma lookup2902_set (c : NimBLECharacteristic) (p : nat)
    (d d' : NimBLE2902) :
  lookup2902 c = p2902_at p d ->
  lookup2902 (set_dscVec c (<[p := Desc2902 d']> (m_dscVec c)))
  = p2902_at p d'.
Proof.
  intros H. apply lookup2902_at in H as [Hfind Hp].
  unfold lookup2902, getDescriptorByUUID in *. simpl.
  rewrite (find_descriptor_insert _ _ _ (Desc2902 d') _ Hp eq_refl), Hfind.
  rewrite list_lookup_insert_eq by (eapply lookup_lt_Some, Hp).
  reflexivity.
Qed.

Lemma subscribers_lookup (c : NimBLECharacteristic)
    (vec : list chr_sub_status_t) :
  subscribers c = Some vec ->
  exists p d, lookup2902 c = p2902_at p d /\ m_subscribedVec d = vec.
Proof.
  unfold subscribers. destruct (lookup2902 c) as [|p d|]; try discriminate.
  intros H. inversion H. eauto.
Qed.

Lemma subVal_of_cases (event : ble_gap_event) :
  subVal_of event =
    match cur_notify event, cur_indicate event with
    | false, false => 0
    | true, false => 1
    | false, true => 2
    | true, true => 3
    end.
Proof. unfold subVal_of. destruct (cur_notify event), (cur_indicate event); reflexivity. Qed.

Lemma subVal_of_nonneg (event : ble_gap_event) : 0 <= subVal_of event.
Proof.
  rewrite subVal_of_cases.
  destruct (cur_notify event), (cur_indicate event); lia.
Qed.

Lemma subVal_of_indicate (event : ble_gap_event) :
  test (subVal_of event) NIMBLE_DESC_FLAG_INDICATE = cur_indicate event.
Proof.
  rewrite subVal_of_cases.
  destruct (cur_notify event), (cur_indicate event); reflexivity.
Qed.

(** C7: on a table with unique connection ids, a subscription event with
    non-zero flags leaves exactly one entry for its connection, carrying
    those flags (appended when the connection had none, rewritten in place
    otherwise); an event with zero flags removes the connection's entry, or
    changes nothing when there is none; applying the same event again
    changes nothing more; and the connection ids stay unique. *)
Theorem setSubscribe_table (c : NimBLECharacteristic) (event : ble_gap_event)
    (vec : list chr_sub_status_t) :
  subscribers c = Some vec ->
  NoDup (conn_id <$> vec) ->
  let conn := uint16_t (conn_handle event) in
  let subVal := subVal_of event in
  exists c' t vec',
    setSubscribe c event = Returned (c', t)
    /\ subscribers c' = Some vec'
    /\ NoDup (conn_id <$> vec')
    /\ (0 < subVal ->
          filter (fun e => conn_id e = conn) vec' = [mk_sub conn subVal]
          /\ (conn ∉ conn_id <$> vec -> vec' = vec ++ [mk_sub conn subVal])
          /\ (conn ∈ conn_id <$> vec ->
                vec' = upsert_entry conn subVal <$> vec))
    /\ (subVal = 0 ->
          vec' = filter (fun e => conn_id e <> conn) vec
          /\ (conn ∉ conn_id <$> vec -> vec' = vec))
    /\ 0 <= subVal
    /\ setSubscribe c' event = Returned (c', t).
Proof.
  intros Hsub Hnd conn subVal.
  destruct (subscribers_lookup c vec Hsub) as (p & d & Hlk & Hvec).
  set (vec' := update_subscribedVec vec conn subVal).
  set (d' := {| m_subscribedVec := vec';
                notifications := test subVal NIMBLE_DESC_FLAG_NOTIFY;
                indications := test subVal NIMBLE_DESC_FLAG_INDICATE |}).
  set (c' := set_dscVec c (<[p := Desc2902 d']> (m_dscVec c))).
  assert (Hlk' : lookup2902 c' = p2902_at p d')
    by (apply lookup2902_set with (d := d); exact Hlk).
  assert (Hrun : exists t,
             setSubscribe c event = Returned (c', t)
             /\ setSubscribe c' event = Returned (c', t)).
  { unfold setSubscribe. rewrite Hlk, Hlk'. rewrite Hvec.
    fold conn subVal vec'. eexists. split; [reflexivity |].
    simpl m_pSemaphore. simpl m_subscribedVec.
    assert (Htwice : update_subscribedVec vec' conn subVal = vec')
      by apply update_subscribedVec_twice, Hnd.
    rewrite Htwice. fold d'. unfold c', set_dscVec. simpl.
    rewrite list_insert_insert_eq. reflexivity. }
  destruct Hrun as (t & Hrun1 & Hrun2).
  exists c', t, vec'. repeat split.
  - exact Hrun1.
  - unfold subscribers. rewrite Hlk'. reflexivity.
  - apply update_subscribedVec_NoDup, Hnd.
  - destruct (decide (conn ∈ conn_id <$> vec)) as [Hin | Habs].
    + unfold vec'. rewrite update_subscribedVec_update by assumption.
      apply upsert_filter_same; assumption.
    + unfold vec'. rewrite update_subscribedVec_insert by assumption.
      rewrite list.filter_app, filter_same_absent by exact Habs.
      rewrite filter_cons_True by reflexivity. reflexivity.
  - intros Habs. apply update_subscribedVec_insert; assumption.
  - intros Hin. apply update_subscribedVec_update; assumption.
  - apply update_subscribedVec_remove; [lia | exact Hnd].
  - intros Habs. unfold vec'.
    rewrite update_subscribedVec_remove by (try lia; exact Hnd).
    apply filter_other_absent, Habs.
  - apply subVal_of_nonneg.
  - exact Hrun2.
Qed.

Lemma setSubscribe_table_witness :
  exists c' t vec',
    setSubscribe chr_ind_then_both (mk_subscribe 1 true false)
      = Returned (c', t)
    /\ subscribers c' = Some vec'
    /\ vec' = [mk_sub 1 1; mk_sub 2 3].
Proof.
  destruct (setSubscribe_table chr_ind_then_both (mk_subscribe 1 true false)
              [mk_sub 1 2; mk_sub 2 3])
    as (c' & t & vec' & Hrun & Hsub & _ & Hpos & _).
  - vm_compute. reflexivity.
  - apply (bool_decide_unpack _). vm_compute. exact I.
  - exists c', t, vec'. split; [exact Hrun | split; [exact Hsub |]].
    apply Hpos; [reflexivity |].
    apply (bool_decide_unpack _). vm_compute. exact I.
Defined.

(** ** [createDescriptor] *)

Lemma find_descriptor_app_Some (l s : list NimBLEDescriptor)
    (uuid : NimBLEUUID) (p : nat) :
  find_descriptor l uuid = Some p -> find_descriptor (l ++ s) uuid = Some p.
Proof.
  revert p. induction l as [|x rest IH]; intros p; simpl; [discriminate |].
  destruct (uuid_eqb (dsc_getUUID x) uuid); [exact id |].
  destruct (find_descriptor rest uuid) as [q|]; [| discriminate].
  rewrite (IH q eq_refl). exact id.
Qed.

Lemma find_descriptor_app_None (l s : list NimBLEDescriptor)
    (uuid : NimBLEUUID) :
  find_descriptor l uuid = None ->
  find_descriptor (l ++ s) uuid
  = (fun p => (length l + p)%nat) <$> find_descriptor s uuid.
Proof.
  induction l as [|x rest IH]; simpl.
  - intros _. destruct (find_descriptor s uuid); reflexivity.
  - destruct (uuid_eqb (dsc_getUUID x) uuid); [discriminate |].
    destruct (find_descriptor rest uuid) as [q|]; [discriminate |].
    intros _. rewrite (IH eq_refl).
    destruct (find_descriptor s uuid); reflexivity.
Qed.

Lemma count2902_app (l s : list NimBLEDescriptor) :
  count2902 (l ++ s) = (count2902 l + count2902 s)%nat.
Proof.
  induction l as [|x rest IH]; simpl; [reflexivity |].
  destruct x; simpl; rewrite IH; reflexivity.
Qed.

Lemma dscVec_ok_nil : dscVec_ok [].
Proof.
  repeat split; simpl; try lia. intros p H. discriminate.
Qed.

(** Appending a descriptor that does not answer to 0x2902. *)
Lemma dscVec_ok_push_other (l : list NimBLEDescriptor) (d : NimBLEDescriptor) :
  dscVec_ok l -> uuid_eqb (dsc_getUUID d) uuid2902 = false ->
  count2902 [d] = 0%nat ->
  dscVec_ok (l ++ [d]).
Proof.
  intros (Hle & Hnone & Hsome) Hu Hc.
  assert (Hd : find_descriptor [d] uuid2902 = None) by (simpl; rewrite Hu; reflexivity).
  unfold dscVec_ok. rewrite count2902_app, Hc, Nat.add_0_r.
  split; [exact Hle |].
  destruct (find_descriptor l uuid2902) as [q|] eqn:Hq.
  - rewrite (find_descriptor_app_Some l [d] _ q Hq).
    split; [discriminate |].
    intros p Hp. inversion Hp; subst.
    destruct (Hsome p eq_refl) as [d0 Hd0]. exists d0.
    rewrite lookup_app_l; [exact Hd0 | eapply lookup_lt_Some, Hd0].
  - rewrite (find_descriptor_app_None l [d] _ Hq), Hd. simpl.
    split; [intros _; apply Hnone; reflexivity | discriminate].
Qed.

(** Appending the 2902 descriptor when the search found none. *)
Lemma dscVec_ok_push_2902 (l : list NimBLEDescriptor) (d : NimBLE2902) :
  dscVec_ok l -> find_descriptor l uuid2902 = None ->
  dscVec_ok (l ++ [Desc2902 d])
  /\ find_descriptor (l ++ [Desc2902 d]) uuid2902 = Some (length l)
  /\ count2902 (l ++ [Desc2902 d]) = 1%nat.
Proof.
  intros (Hle & Hnone & Hsome) Hq.
  assert (Hfind : find_descriptor (l ++ [Desc2902 d]) uuid2902 = Some (length l)).
  { rewrite (find_descriptor_app_None l _ _ Hq). simpl.
    rewrite Nat.add_0_r. reflexivity. }
  assert (Hcount : count2902 (l ++ [Desc2902 d]) = 1%nat).
  { rewrite count2902_app, (Hnone Hq). reflexivity. }
  split; [| split; assumption].
  unfold dscVec_ok. rewrite Hfind, Hcount. split; [lia |].
  split; [discriminate |].
  intros p Hp. inversion Hp; subst. exists d.
  rewrite lookup_app_r; [| lia]. rewrite Nat.sub_diag. reflexivity.
Qed.

Lemma createDescriptor_inv (c c' : NimBLECharacteristic) (uuid : NimBLEUUID)
    (properties max_len : Z) (p : nat) :
  createDescriptor c uuid properties max_len = Returned (p, c') ->
  dscVec_ok (m_dscVec c) ->
  dscVec_ok (m_dscVec c')
  /\ m_properties c' = m_properties c
  /\ exists suffix, m_dscVec c' = m_dscVec c ++ suffix.
Proof.
  unfold createDescriptor, push_back_dsc, getDescriptorByUUID.
  intros H Hok.
  destruct (uuid_eqb uuid uuid2902) eqn:Hu.
  - destruct (negb _ && negb _); [discriminate |].
    apply uuid_eqb_eq in Hu. subst uuid.
    destruct (find_descriptor (m_dscVec c) uuid2902) as [q|] eqn:Hq;
      inversion H; subst; simpl.
    + split; [exact Hok | split; [reflexivity |]].
      exists []. rewrite app_nil_r. reflexivity.
    + split; [apply dscVec_ok_push_2902; assumption |].
      split; [reflexivity | eauto].
  - destruct (uuid_eqb uuid uuid2904) eqn:Hu4; inversion H; subst; simpl.
    + split; [apply dscVec_ok_push_other; auto |].
      split; [reflexivity | eauto].
    + split; [apply dscVec_ok_push_other; auto |].
      split; [reflexivity | eauto].
Qed.

Lemma createDescriptors_inv (calls : list (NimBLEUUID * Z * Z))
    (c c' : NimBLECharacteristic) :
  createDescriptors c calls = Returned c' ->
  dscVec_ok (m_dscVec c) ->
  dscVec_ok (m_dscVec c')
  /\ m_properties c' = m_properties c
  /\ exists suffix, m_dscVec c' = m_dscVec c ++ suffix.
Proof.
  revert c. induction calls as [|[[uuid properties] max_len] rest IH];
    intros c H Hok; simpl in H.
  - inversion H; subst. split; [exact Hok | split; [reflexivity |]].
    exists []. rewrite app_nil_r. reflexivity.
  - destruct (createDescriptor c uuid properties max_len) as [[p c1]| |] eqn:H1;
      try discriminate.
    destruct (createDescriptor_inv _ _ _ _ _ _ H1 Hok) as (Hok1 & Hp1 & s1 & Hs1).
    destruct (IH c1 H Hok1) as (Hok' & Hp' & s' & Hs').
    split; [exact Hok' | split; [congruence |]].
    exists (s1 ++ s'). rewrite Hs', Hs1, app_assoc. reflexivity.
Qed.

Lemma assert_passes (c : NimBLECharacteristic) :
  test (m_properties c) BLE_GATT_CHR_F_NOTIFY
  || test (m_properties c) BLE_GATT_CHR_F_INDICATE = true ->
  negb (test (m_properties c) BLE_GATT_CHR_F_NOTIFY)
  && negb (test (m_properties c) BLE_GATT_CHR_F_INDICATE) = false.
Proof.
  destruct (test _ BLE_GATT_CHR_F_NOTIFY), (test _ BLE_GATT_CHR_F_INDICATE);
    simpl; congruence.
Qed.

(** With the notify or indicate property, a call for UUID 0x2902 returns
    the descriptor the search finds and leaves the object alone ... *)
Lemma createDescriptor_2902_found (c : NimBLECharacteristic)
    (properties max_len : Z) (p : nat) :
  test (m_properties c) BLE_GATT_CHR_F_NOTIFY
  || test (m_properties c) BLE_GATT_CHR_F_INDICATE = true ->
  getDescriptorByUUID c uuid2902 = Some p ->
  createDescriptor c uuid2902 properties max_len = Returned (p, c).
Proof.
  intros Hprop Hfind. unfold createDescriptor.
  rewrite uuid_eqb_refl, (assert_passes c Hprop), Hfind. reflexivity.
Qed.

(** ... and, when the search finds none, appends a new [NimBLE2902], which
    the search finds from then on. *)
Lemma createDescriptor_2902_fresh (c : NimBLECharacteristic)
    (properties max_len : Z) :
  test (m_properties c) BLE_GATT_CHR_F_NOTIFY
  || test (m_properties c) BLE_GATT_CHR_F_INDICATE = true ->
  getDescriptorByUUID c uuid2902 = None ->
  exists c',
    createDescriptor c uuid2902 properties max_len
      = Returned (length (m_dscVec c), c')
    /\ m_dscVec c' = m_dscVec c ++ [Desc2902 new2902]
    /\ getDescriptorByUUID c' uuid2902 = Some (length (m_dscVec c)).
Proof.
  intros Hprop Hfind. unfold createDescriptor.
  rewrite uuid_eqb_refl, (assert_passes c Hprop), Hfind.
  eexists. split; [reflexivity |]. simpl. split; [reflexivity |].
  unfold getDescriptorByUUID in *. simpl.
  rewrite (find_descriptor_app_None _ _ _ Hfind). simpl.
  rewrite Nat.add_0_r. reflexivity.
Qed.

(** Without either property the [assert] stops the call. *)
Lemma createDescriptor_2902_asserts (c : NimBLECharacteristic)
    (properties max_len : Z) :
  test (m_properties c) BLE_GATT_CHR_F_NOTIFY = false ->
  test (m_properties c) BLE_GATT_CHR_F_INDICATE = false ->
  exists msg,
    createDescriptor c uuid2902 properties max_len = AssertFailed msg.
Proof.
  intros Hn Hi. unfold createDescriptor.
  rewrite uuid_eqb_refl, Hn, Hi. simpl. eauto.
Qed.

Lemma count2902_lookup (l : list NimBLEDescriptor) (p : nat) (d : NimBLE2902) :
  l !! p = Some (Desc2902 d) -> (1 <= count2902 l)%nat.
Proof.
  revert p. induction l as [|x rest IH]; intros p H; [discriminate |].
  destruct p as [|p]; simpl in H.
  - inversion H; subst. simpl. lia.
  - specialize (IH p H). destruct x; simpl; lia.
Qed.

(** C10: on a characteristic built by the constructor and any run of
    [createDescriptor] calls, the descriptor vector holds at most one
    [NimBLE2902]; and, the characteristic having the notify or indicate
    property the call asserts, a call for UUID 0x2902 returns: when no 2902
    descriptor exists yet it appends a fresh one, and every later call for
    that UUID, whatever calls come in between, returns that same descriptor
    and leaves the object as it is. *)
Theorem createDescriptor_2902_idempotent (uuid : NimBLEUUID) (properties : Z)
    (svc : option NimBLEService) (calls : list (NimBLEUUID * Z * Z))
    (c : NimBLECharacteristic) :
  createDescriptors (construct uuid properties svc) calls = Returned c ->
  (count2902 (m_dscVec c) <= 1)%nat
  /\ (test (uint16_t properties) BLE_GATT_CHR_F_NOTIFY
      || test (uint16_t properties) BLE_GATT_CHR_F_INDICATE = true ->
      forall prop len, exists p c1,
        createDescriptor c uuid2902 prop len = Returned (p, c1)
        /\ (exists d, m_dscVec c1 !! p = Some (Desc2902 d))
        /\ (getDescriptorByUUID c uuid2902 = None ->
              p = length (m_dscVec c)
              /\ m_dscVec c1 = m_dscVec c ++ [Desc2902 new2902])
        /\ count2902 (m_dscVec c1) = 1%nat
        /\ forall calls' c2,
              createDescriptors c1 calls' = Returned c2 ->
              count2902 (m_dscVec c2) = 1%nat
              /\ forall prop' len',
                    createDescriptor c2 uuid2902 prop' len'
                    = Returned (p, c2)).
Proof.
  intros Hrun.
  destruct (createDescriptors_inv calls _ _ Hrun dscVec_ok_nil)
    as (Hok & Hprops & _).
  split; [apply Hok |].
  intros Hprop prop len. simpl in Hprops. rewrite <- Hprops in Hprop.
  assert (Hone : forall x p, dscVec_ok (m_dscVec x) ->
            getDescriptorByUUID x uuid2902 = Some p ->
            (exists d, m_dscVec x !! p = Some (Desc2902 d))
            /\ count2902 (m_dscVec x) = 1%nat).
  { intros x p (Hle & _ & Hsome) Hfind.
    destruct (Hsome p Hfind) as [d Hd]. split; [eauto |].
    pose proof (count2902_lookup _ _ _ Hd). lia. }
  assert (Hlater : forall p c1,
            createDescriptor c uuid2902 prop len = Returned (p, c1) ->
            getDescriptorByUUID c1 uuid2902 = Some p ->
            forall calls' c2,
              createDescriptors c1 calls' = Returned c2 ->
              count2902 (m_dscVec c2) = 1%nat
              /\ forall prop' len',
                    createDescriptor c2 uuid2902 prop' len'
                    = Returned (p, c2)).
  { intros p c1 Hcall Hfind calls' c2 Hrun'.
    destruct (createDescriptor_inv _ _ _ _ _ _ Hcall Hok) as (Hok1 & Hp1 & _).
    destruct (createDescriptors_inv calls' _ _ Hrun' Hok1)
      as (Hok2 & Hp2 & s & Hs).
    assert (Hfind2 : getDescriptorByUUID c2 uuid2902 = Some p).
    { unfold getDescriptorByUUID in *. rewrite Hs.
      apply find_descriptor_app_Some, Hfind. }
    split; [apply (Hone c2 p Hok2 Hfind2) |].
    intros prop' len'. apply createDescriptor_2902_found; [| exact Hfind2].
    rewrite Hp2, Hp1. exact Hprop. }
  destruct (getDescriptorByUUID c uuid2902) as [q|] eqn:Hfind.
  - pose proof (createDescriptor_2902_found c prop len q Hprop Hfind) as Hcall.
    exists q, c. split; [exact Hcall |].
    destruct (Hone c q Hok Hfind) as [Hd Hcount].
    split; [exact Hd |]. split; [discriminate |]. split; [exact Hcount |].
    apply Hlater; assumption.
  - destruct (createDescriptor_2902_fresh c prop len Hprop Hfind)
      as (c1 & Hcall & Hvec & Hfind1).
    exists (length (m_dscVec c)), c1. split; [exact Hcall |].
    destruct (createDescriptor_inv _ _ _ _ _ _ Hcall Hok) as (Hok1 & _ & _).
    destruct (Hone c1 _ Hok1 Hfind1) as [Hd Hcount].
    split; [exact Hd |]. split; [intros _; split; [reflexivity | exact Hvec] |].
    split; [exact Hcount |].
    apply Hlater; assumption.
Qed.

Lemma createDescriptor_2902_idempotent_witness :
  exists p c1,
    createDescriptor chr_ni uuid2902 0 0 = Returned (p, c1)
    /\ count2902 (m_dscVec c1) = 1%nat
    /\ createDescriptor c1 uuid2902 3 2 = Returned (p, c1).
Proof.
  destruct (createDescriptor_2902_idempotent (UUID16 0x2a37)
              (Z.lor BLE_GATT_CHR_F_NOTIFY BLE_GATT_CHR_F_INDICATE)
              service_mtu23 [(uuid2902, 0, 0)] chr_ni) as [_ H].
  - vm_compute. reflexivity.
  - destruct (H eq_refl 0 0) as (p & c1 & Hcall & _ & _ & Hcount & Hlater).
    exists p, c1. split; [exact Hcall | split; [exact Hcount |]].
    apply (Hlater [] c1 eq_refl).
Defined.

(** ** Reachable subscriber tables *)

Lemma then_setSubscribe_subscribers (c : NimBLECharacteristic)
    (event : ble_gap_event) (vec : list chr_sub_status_t) :
  subscribers c = Some vec ->
  subscribers (then_setSubscribe c event)
  = Some (update_subscribedVec vec (uint16_t (conn_handle event))
                               (subVal_of event)).
Proof.
  intros Hsub.
  destruct (subscribers_lookup c vec Hsub) as (p & d & Hlk & Hvec).
  unfold then_setSubscribe, setSubscribe. rewrite Hlk.
  unfold subscribers. erewrite lookup2902_set by exact Hlk.
  simpl. rewrite Hvec. reflexivity.
Qed.

(** Starting from a table with unique connection ids (the empty table of a
    new 2902 descriptor is one), no run of subscription events produces two
    entries for one connection. *)
Lemma subscribers_unique_throughout (events : list ble_gap_event)
    (c : NimBLECharacteristic) (vec : list chr_sub_status_t) :
  subscribers c = Some vec -> NoDup (conn_id <$> vec) ->
  exists vec',
    subscribers (foldl then_setSubscribe c events) = Some vec'
    /\ NoDup (conn_id <$> vec').
Proof.
  revert c vec. induction events as [|event rest IH]; intros c vec Hsub Hnd;
    simpl.
  - eauto.
  - eapply IH.
    + apply then_setSubscribe_subscribers, Hsub.
    + apply update_subscribedVec_NoDup, Hnd.
Qed.

(** ** [notify]: one subscriber *)

Section NotifyOne.

Variables (c : NimBLECharacteristic) (h : Host) (srv : NimBLEServer).
Variables (is_notification : bool) (it : chr_sub_status_t).

(** A skipped subscriber causes no call at all and leaves the mode as it
    was. *)
Lemma notify_one_skipped :
  skipped srv it = true ->
  notify_one c h srv is_notification it = (is_notification, []).
Proof.
  unfold skipped, notify_one. intros H.
  destruct (uint16_t (getPeerMTU srv (conn_id it)) =? 0); [reflexivity |].
  simpl in H. rewrite H. reflexivity.
Qed.

(** The mode a processed subscriber leaves in [is_notification]. *)
Lemma notify_one_mode :
  skipped srv it = false ->
  fst (notify_one c h srv is_notification it)
  = (is_notification && test (sub_val it) NIMBLE_DESC_FLAG_NOTIFY)
    || negb (test (sub_val it) NIMBLE_DESC_FLAG_INDICATE).
Proof.
  unfold skipped, notify_one. intros H.
  apply orb_false_iff in H as [H1 H2]. rewrite H1, H2.
  destruct is_notification,
    (test (sub_val it) NIMBLE_DESC_FLAG_NOTIFY),
    (test (sub_val it) NIMBLE_DESC_FLAG_INDICATE); reflexivity.
Qed.

(** A processed subscriber is sent the whole committed value, whatever
    its MTU, and gets one status callback. *)
Lemma notify_one_payload :
  skipped srv it = false ->
  Z.of_nat (length (getValue c)) < 2 ^ 32 ->
  sent (snd (notify_one c h srv is_notification it))
  = [(conn_id it, getValue c)]
  /\ length (statuses (snd (notify_one c h srv is_notification it))) = 1%nat.
Proof.
  unfold skipped, notify_one. intros H Hlen.
  apply orb_false_iff in H as [H1 H2]. rewrite H1, H2.
  assert (Hsz : size_t (Z.of_nat (length (getValue c)))
                = Z.of_nat (length (getValue c)))
    by (unfold size_t; apply Z.mod_small; lia).
  rewrite !Hsz, !firstn_length_all.
  destruct (_ >? _),
    (is_notification && negb (test (sub_val it) NIMBLE_DESC_FLAG_NOTIFY)),
    is_notification,
    (test (sub_val it) NIMBLE_DESC_FLAG_INDICATE),
    (m_pSemaphore c);
    simpl;
    repeat match goal with
           | |- context [if ?b then _ else _] => destruct b; simpl
           end;
    split; reflexivity.
Qed.

(** Whenever the subscriber is sent an indication, the status reported is
    one of the three the final test on [rc] assigns, so never
    [ERROR_GATT]. *)
Lemma notify_one_indicate_status :
  indicated (snd (notify_one c h srv is_notification it)) <> [] ->
  forall status code,
    In (status, code)
       (statuses (snd (notify_one c h srv is_notification it))) ->
    status <> ERROR_GATT.
Proof.
  unfold notify_one.
  destruct (_ =? 0); [simpl; congruence |].
  destruct (sub_val it =? 0); [simpl; congruence |].
  destruct (_ >? _),
    (is_notification && negb (test (sub_val it) NIMBLE_DESC_FLAG_NOTIFY)),
    is_notification,
    (test (sub_val it) NIMBLE_DESC_FLAG_INDICATE),
    (m_pSemaphore c);
    simpl; try congruence;
    repeat match goal with
           | |- context [if ?b then _ else _] => destruct b; simpl
           end;
    try congruence;
    intros _ status code [Heq | []]; inversion Heq; discriminate.
Qed.

End NotifyOne.

(** ** [notify]: runs on concrete inputs *)

(** C1: a subscriber with MTU 23 and a committed value of 30 bytes.  The
    code logs that it truncates and then hands all 30 bytes to the
    transport, where min(L, M-3) is 20; the stored value is as before. *)
Theorem notify_sends_untruncated :
  getPeerMTU server_mtu23 1 = 23
  /\ length (getValue chr_long_value) = 30%nat
  /\ Z.min 30 (23 - 3) = 20
  /\ exists t,
       notify chr_long_value host_ok true = Returned t
       /\ In (log LOGW "- Truncating to %d bytes (maximum notify size)") t
       /\ sent t = [(1, getValue chr_long_value)]
       /\ (length <$> (snd <$> sent t)) = [30%nat].
Proof.
  repeat split. eexists. split; [vm_compute; reflexivity |].
  split; [simpl; auto | split; reflexivity].
Qed.

(** C2: an indication whose transport call fails at once with
    [BLE_HS_ENOMEM].  The semaphore is given back, but the status callback
    receives [ERROR_INDICATE_FAILURE]: the [ERROR_GATT] the failure branch
    assigns is overwritten by the test on [rc] that follows. *)
Theorem indicate_send_failure_status :
  ble_gattc_indicate_custom host_indicate_enomem 1 NULL_HANDLE
    (getValue chr_indicate_only) = 6
  /\ exists t,
       notify chr_indicate_only host_indicate_enomem false = Returned t
       /\ indicated t = [1]
       /\ gives t = [give_default]
       /\ statuses t = [(ERROR_INDICATE_FAILURE, 6)].
Proof.
  split; [reflexivity |]. eexists. split; [vm_compute; reflexivity |].
  repeat split.
Qed.

(** C3: a notify request with two subscribers, connection 1 (indicate
    only) and connection 2 (notify and indicate).  When connection 1 comes
    first, the switch to indicate made for it stays in force and
    connection 2 is sent an indication although it enabled notifications;
    when connection 2 comes first it is sent a notification.  The mode
    used for connection 2 thus depends on the subscriber before it. *)
Theorem mode_switch_carries_over :
  subscribers chr_ind_then_both = Some [mk_sub 1 2; mk_sub 2 3]
  /\ subscribers chr_both_then_ind = Some [mk_sub 2 3; mk_sub 1 2]
  /\ (exists t,
        notify chr_ind_then_both host_ok true = Returned t
        /\ indicated t = [1; 2] /\ notified t = [])
  /\ (exists t,
        notify chr_both_then_ind host_ok true = Returned t
        /\ indicated t = [1] /\ notified t = [2]).
Proof.
  split; [reflexivity | split; [reflexivity |]].
  split; eexists; (split; [vm_compute; reflexivity | split; reflexivity]).
Qed.

(** ** [handleGapEvent] *)

(** A write whose head buffer is longer than the maximum is rejected with
    nothing changed and no callback. *)
Lemma write_long_head_rejected (h : Host) (conn_handle attr_handle : Z)
    (ctxt : ble_gatt_access_ctxt) (c : NimBLECharacteristic) :
  op ctxt = BLE_GATT_ACCESS_OP_WRITE_CHR ->
  chr_uuid ctxt = getUUID c ->
  BLE_ATT_ATTR_MAX_LEN < om_len (om ctxt) ->
  handleGapEvent h conn_handle attr_handle ctxt c
  = (BLE_ATT_ERR_INVALID_ATTR_VALUE_LEN, c, []).
Proof.
  intros Hop Hu Hlen. unfold handleGapEvent.
  rewrite Hu, uuid_eqb_refl, Hop.
  destruct (Z.gtb_spec (om_len (om ctxt)) BLE_ATT_ATTR_MAX_LEN);
    [reflexivity | lia].
Qed.

(** C4: a write for this characteristic whose first buffer has one byte
    and whose second has 513, one more than the maximum attribute length.
    Only the head buffer is measured: the call returns 0, both buffers are
    appended and committed (514 bytes), and the write callback runs. *)
Theorem write_long_later_fragment_accepted :
  chr_uuid write_long_second = getUUID chr_indicate_only
  /\ (om_len <$> om_next write_long_second) = [513]
  /\ BLE_ATT_ATTR_MAX_LEN = 512
  /\ exists c',
       handleGapEvent host_ok 1 NULL_HANDLE write_long_second chr_indicate_only
       = (0, c', [onWrite])
       /\ getDataLength c' = 514
       /\ getValue c' <> getValue chr_indicate_only.
Proof.
  split; [reflexivity | split; [reflexivity | split; [reflexivity |]]].
  eexists. split; [vm_compute; reflexivity |].
  split; [reflexivity | discriminate].
Qed.

(** ** The confirmation semaphore on subscription events *)

(** The statement of the specification fails on an event that enables
    indications for connection 2: the semaphore is given, with value 0. *)
Lemma gate_released_on_enable :
  ~ gate_released_only_on_disable chr_indicate_only (mk_subscribe 2 false true).
Proof.
  intros H. destruct H as [_ H]; [discriminate |].
  specialize (H eq_refl). vm_compute in H. discriminate.
Qed.

(** C5: while the semaphore exists, every subscription event gives it
    exactly once: with the "indicate disabled" status when the new flags
    lack indicate, and with 0 when they include it. *)
Theorem setSubscribe_gives (c : NimBLECharacteristic) (event : ble_gap_event) :
  m_pSemaphore c <> None ->
  gives (subscribe_trace (setSubscribe c event))
  = [if cur_indicate event then give_int 0
     else give_status ERROR_INDICATE_DISABLED].
Proof.
  intros Hsem. unfold setSubscribe.
  rewrite subVal_of_indicate.
  destruct (m_pSemaphore c); [| congruence].
  destruct (lookup2902 c); simpl; reflexivity.
Qed.

Lemma setSubscribe_gives_witness :
  gives (subscribe_trace (setSubscribe chr_indicate_only
                            (mk_subscribe 1 true false)))
  = [give_status ERROR_INDICATE_DISABLED].
Proof.
  apply (setSubscribe_gives chr_indicate_only (mk_subscribe 1 true false)).
  vm_compute. discriminate.
Defined.

(** ** A characteristic without 2902 descriptor *)

Lemma setSubscribe_without_2902 (c : NimBLECharacteristic)
    (event : ble_gap_event) :
  lookup2902 c = p2902_null ->
  exists t,
    setSubscribe c event = Returned (c, t)
    /\ errors_logged t = ["No 2902 descriptor found for %s"%string]
    /\ sent t = [] /\ statuses t = [].
Proof.
  intros H. unfold setSubscribe. rewrite H.
  eexists. split; [reflexivity |].
  destruct (m_pSemaphore c); simpl; repeat split.
Qed.

Lemma notify_without_2902 (c : NimBLECharacteristic) (h : Host)
    (is_notification : bool) (svc : NimBLEService) (srv : NimBLEServer) :
  getService c = Some svc -> getServer svc = Some srv ->
  getConnectedCount srv <> 0 ->
  lookup2902 c = p2902_null ->
  notify c h is_notification = UndefinedBehaviour [onNotify].
Proof.
  intros Hsvc Hsrv Hn H. unfold notify. rewrite Hsvc, Hsrv, H.
  destruct (Z.eqb_spec (getConnectedCount srv) 0); [contradiction |].
  reflexivity.
Qed.

(** C6: a connected characteristic that never got a 2902 descriptor.  A
    subscription event logs the error and returns with nothing changed;
    [notify] and [indicate] run the pre-send callback and then go through
    the null descriptor pointer: no error is logged and the call does not
    return. *)
Theorem notify_null_2902 :
  getDescriptorByUUID chr_no2902 uuid2902 = None
  /\ setSubscribe chr_no2902 (mk_subscribe 1 true false)
     = Returned (chr_no2902,
                 [log LOGI "New subscribe value for conn: %d val: %d";
                  log LOGE "No 2902 descriptor found for %s"])
  /\ notify chr_no2902 host_ok true = UndefinedBehaviour [onNotify]
  /\ indicate chr_no2902 host_ok = UndefinedBehaviour [onNotify].
Proof. repeat split. Qed.

(** * Further properties *)

(** ** Access events *)

Lemma uuid_eqb_neq (a b : NimBLEUUID) : a <> b -> uuid_eqb a b = false.
Proof.
  intros H. destruct (uuid_eqb a b) eqn:E; [| reflexivity].
  apply uuid_eqb_eq in E. contradiction.
Qed.

Lemma addParts_accumulation (next : list os_mbuf) (v : NimBLEValue.t) :
  NimBLEValue.m_accumulation (addParts v next)
  = NimBLEValue.m_accumulation v ++ concat (om_data <$> next)
  /\ NimBLEValue.m_value (addParts v next) = NimBLEValue.m_value v.
Proof.
  revert v. induction next as [|n rest IH]; intros v; simpl.
  - rewrite app_nil_r. split; reflexivity.
  - destruct (IH (NimBLEValue.addPart v
                    (firstn (Z.to_nat (om_len n)) (om_data n)))) as [Ha Hv].
    rewrite Ha, Hv. unfold om_len. rewrite firstn_length_all. simpl.
    rewrite <- app_assoc. split; reflexivity.
Qed.



(** A write of this characteristic whose head buffer is within the maximum
    returns 0, commits the pending accumulation followed by the bytes of
    every buffer of the chain in chain order, empties the accumulator, runs
    the write callback exactly once, and touches nothing else. *)
Theorem write_access (h : Host) (conn_handle attr_handle : Z)
    (ctxt : ble_gatt_access_ctxt) (c : NimBLECharacteristic) :
  op ctxt = BLE_GATT_ACCESS_OP_WRITE_CHR ->
  chr_uuid ctxt = getUUID c ->
  om_len (om ctxt) <= BLE_ATT_ATTR_MAX_LEN ->
  exists c',
    handleGapEvent h conn_handle attr_handle ctxt c = (0, c', [onWrite])
    /\ getValue c'
       = NimBLEValue.m_accumulation (m_value c) ++ chain_bytes ctxt
    /\ NimBLEValue.m_accumulation (m_value c') = []
    /\ m_dscVec c' = m_dscVec c
    /\ m_properties c' = m_properties c
    /\ m_pSemaphore c' = m_pSemaphore c.
Proof.
  intros Hop Hu Hlen. unfold handleGapEvent.
  rewrite Hu, uuid_eqb_refl, Hop.
  destruct (Z.gtb_spec (om_len (om ctxt)) BLE_ATT_ATTR_MAX_LEN); [lia |].
  eexists. split; [reflexivity |].
  unfold getValue, NimBLEValue.getValue, chain_bytes. simpl.
  destruct (addParts_accumulation (om_next ctxt)
              (NimBLEValue.addPart (m_value c)
                 (firstn (Z.to_nat (om_len (om ctxt))) (om_data (om ctxt)))))
    as [Ha _].
  rewrite Ha. unfold om_len. rewrite firstn_length_all. simpl.
  rewrite <- app_assoc. repeat split.
Qed.

Lemma write_access_witness :
  exists c',
    handleGapEvent host_ok 1 NULL_HANDLE
      (mk_ctxt BLE_GATT_ACCESS_OP_WRITE_CHR (mk_mbuf ["h"%byte] 16)
               [mk_mbuf ["i"%byte] 0] (UUID16 0x2a37))
      chr_indicate_only
    = (0, c', [onWrite])
    /\ getValue c' = ["h"%byte; "i"%byte].
Proof.
  destruct (write_access host_ok 1 NULL_HANDLE
              (mk_ctxt BLE_GATT_ACCESS_OP_WRITE_CHR (mk_mbuf ["h"%byte] 16)
                       [mk_mbuf ["i"%byte] 0] (UUID16 0x2a37))
              chr_indicate_only) as (c' & Hrun & Hval & _).
  - reflexivity.
  - reflexivity.
  - vm_compute. discriminate.
  - exists c'. split; [exact Hrun | exact Hval].
Defined.

(** An access event for another UUID, or a descriptor operation, is
    answered [BLE_ATT_ERR_UNLIKELY]: nothing is changed, appended or called
    back. *)
Theorem access_mismatch (h : Host) (conn_handle attr_handle : Z)
    (ctxt : ble_gatt_access_ctxt) (c : NimBLECharacteristic) :
  chr_uuid ctxt <> getUUID c
  \/ op ctxt = BLE_GATT_ACCESS_OP_READ_DSC
  \/ op ctxt = BLE_GATT_ACCESS_OP_WRITE_DSC ->
  handleGapEvent h conn_handle attr_handle ctxt c
  = (BLE_ATT_ERR_UNLIKELY, c, []).
Proof.
  unfold handleGapEvent. intros [Hu | [Hop | Hop]].
  - rewrite (uuid_eqb_neq _ _ Hu). reflexivity.
  - rewrite Hop. destruct (uuid_eqb _ _); reflexivity.
  - rewrite Hop. destruct (uuid_eqb _ _); reflexivity.
Qed.

Lemma access_mismatch_witness :
  handleGapEvent host_ok 1 NULL_HANDLE
    (mk_ctxt BLE_GATT_ACCESS_OP_WRITE_CHR (mk_mbuf ["h"%byte] 16) []
             (UUID16 0x2a38))
    chr_indicate_only
  = (BLE_ATT_ERR_UNLIKELY, chr_indicate_only, []).
Proof.
  apply (access_mismatch host_ok 1 NULL_HANDLE
           (mk_ctxt BLE_GATT_ACCESS_OP_WRITE_CHR (mk_mbuf ["h"%byte] 16) []
                    (UUID16 0x2a38))
           chr_indicate_only).
  left. vm_compute. discriminate.
Defined.

(** Whatever the event, a non-zero result means the characteristic is
    unchanged and the write callback did not run; and the result is one of
    0 and the three ATT error codes. *)
Theorem access_failure_changes_nothing (h : Host) (conn_handle attr_handle : Z)
    (ctxt : ble_gatt_access_ctxt) (c : NimBLECharacteristic) :
  let r := handleGapEvent h conn_handle attr_handle ctxt c in
  (fst (fst r) <> 0 -> snd (fst r) = c /\ onWrites (snd r) = 0%nat)
  /\ (fst (fst r) = 0
      \/ fst (fst r) = BLE_ATT_ERR_INSUFFICIENT_RES
      \/ fst (fst r) = BLE_ATT_ERR_INVALID_ATTR_VALUE_LEN
      \/ fst (fst r) = BLE_ATT_ERR_UNLIKELY).
Proof.
  unfold handleGapEvent.
  destruct (uuid_eqb _ _); [| simpl; split; [intros _; split; reflexivity | auto]].
  destruct (op ctxt); simpl.
  - destruct (os_mbuf_append h _ =? 0), (om_pkthdr_len (om ctxt) >? 8);
      simpl; split; auto.
  - destruct (om_len (om ctxt) >? BLE_ATT_ATTR_MAX_LEN); simpl;
      split; auto; congruence.
  - split; auto.
  - split; auto.
Qed.

Lemma access_failure_changes_nothing_witness :
  snd (fst (handleGapEvent host_ok 1 NULL_HANDLE
              (mk_ctxt BLE_GATT_ACCESS_OP_WRITE_CHR
                       (mk_mbuf (repeat "x"%byte 513) 16) [] (UUID16 0x2a37))
              chr_indicate_only))
  = chr_indicate_only.
Proof.
  apply (access_failure_changes_nothing host_ok 1 NULL_HANDLE
           (mk_ctxt BLE_GATT_ACCESS_OP_WRITE_CHR
                    (mk_mbuf (repeat "x"%byte 513) 16) [] (UUID16 0x2a37))
           chr_indicate_only).
  vm_compute. discriminate.
Defined.

(** ** What every run of calls preserves *)

Lemma test_pow2 (x k : Z) : 0 <= k -> test x (2 ^ k) = Z.testbit x k.
Proof.
  intros Hk. unfold test. destruct (Z.testbit x k) eqn:E.
  - destruct (Z.eqb_spec (Z.land x (2 ^ k)) 0) as [H0 | ]; [| reflexivity].
    assert (Hb : Z.testbit (Z.land x (2 ^ k)) k = true).
    { rewrite Z.land_spec, E, Z.pow2_bits_true by lia. reflexivity. }
    rewrite H0, Z.bits_0 in Hb. discriminate.
  - assert (H0 : Z.land x (2 ^ k) = 0).
    { apply Z.bits_inj'. intros n Hn.
      rewrite Z.land_spec, Z.bits_0, Z.pow2_bits_eqb by lia.
      destruct (Z.eqb_spec k n); [subst; rewrite E |];
        [reflexivity | apply andb_false_r]. }
    rewrite H0. reflexivity.
Qed.

Lemma do_call_frame (c c' : NimBLECharacteristic) (k : call) :
  do_call c k = Some c' ->
  m_pSemaphore c' = m_pSemaphore c
  /\ m_properties c' = m_properties c
  /\ m_uuid c' = m_uuid c
  /\ m_handle c' = m_handle c
  /\ m_pService c' = m_pService c.
Proof.
  destruct k as [data | event | uuid properties max_len | h ch ah ctxt];
    simpl.
  - unfold setValue. destruct (_ >? _); intros H; inversion H; subst;
      simpl; repeat split.
  - unfold setSubscribe. destruct (lookup2902 c);
      intros H; inversion H; subst; simpl; repeat split.
  - unfold createDescriptor, push_back_dsc.
    repeat match goal with
           | |- context [if ?b then _ else _] => destruct b
           | |- context [match getDescriptorByUUID ?x ?u with _ => _ end] =>
               destruct (getDescriptorByUUID x u)
           end;
      intros H; inversion H; subst; simpl; repeat split.
  - unfold handleGapEvent.
    destruct (uuid_eqb _ _); [destruct (op ctxt) |];
      try destruct (_ >? BLE_ATT_ATTR_MAX_LEN);
      intros H; inversion H; subst; simpl; repeat split.
Qed.

(** The semaphore exists exactly when bit 5, the indicate property, was
    set in the properties the constructor got, and no later call creates or
    drops it; UUID, handle, service and properties stay as constructed. *)
Theorem gate_fixed_at_construction (uuid : NimBLEUUID) (properties : Z)
    (svc : option NimBLEService) (ks : list call)
    (c : NimBLECharacteristic) :
  do_calls (construct uuid properties svc) ks = Some c ->
  (m_pSemaphore c <> None <-> Z.testbit properties 5 = true)
  /\ m_properties c = properties mod 2 ^ 16
  /\ getUUID c = uuid
  /\ getHandle c = NULL_HANDLE
  /\ getService c = svc.
Proof.
  assert (Hrun : forall ks c0,
            do_calls c0 ks = Some c ->
            m_pSemaphore c = m_pSemaphore c0
            /\ m_properties c = m_properties c0
            /\ m_uuid c = m_uuid c0
            /\ m_handle c = m_handle c0
            /\ m_pService c = m_pService c0).
  { clear ks. induction ks as [|k rest IH]; intros c0 H; simpl in H.
    - inversion H; subst. repeat split.
    - destruct (do_call c0 k) as [c1|] eqn:Hk; [| discriminate].
      destruct (do_call_frame _ _ _ Hk) as (H1 & H2 & H3 & H4 & H5).
      destruct (IH c1 H) as (G1 & G2 & G3 & G4 & G5).
      repeat split; congruence. }
  intros H. destruct (Hrun ks _ H) as (H1 & H2 & H3 & H4 & H5).
  unfold getUUID, getHandle, getService.
  rewrite H1, H2, H3, H4, H5. unfold construct.
  cbn [m_pSemaphore m_properties m_uuid m_handle m_pService].
  split; [| repeat split].
  unfold NIMBLE_PROPERTY_INDICATE, BLE_GATT_CHR_F_INDICATE.
  change 0x0020 with (2 ^ 5). rewrite test_pow2 by lia.
  unfold uint16_t. rewrite Z.mod_pow2_bits_low by lia.
  destruct (Z.testbit properties 5); split; congruence.
Qed.

Lemma gate_fixed_at_construction_witness :
  m_pSemaphore chr_indicate_only <> None <-> Z.testbit 0x30 5 = true.
Proof.
  apply (gate_fixed_at_construction (UUID16 0x2a37) 0x30 service_mtu23
           [call_createDescriptor uuid2902 0 0;
            call_setSubscribe (mk_subscribe 1 false true);
            call_setValue ["a"%byte; "b"%byte]]
           chr_indicate_only).
  vm_compute. reflexivity.
Defined.

Lemma count2902_insert (l : list NimBLEDescriptor) (p : nat)
    (d d' : NimBLE2902) :
  l !! p = Some (Desc2902 d) ->
  count2902 (<[p := Desc2902 d']> l) = count2902 l.
Proof.
  revert p. induction l as [|x rest IH]; intros p H; [reflexivity |].
  destruct p as [|p]; simpl in *.
  - inversion H; subst. reflexivity.
  - rewrite (IH p H). reflexivity.
Qed.

Lemma dscVec_ok_insert (l : list NimBLEDescriptor) (p : nat)
    (d d' : NimBLE2902) :
  l !! p = Some (Desc2902 d) -> dscVec_ok l ->
  dscVec_ok (<[p := Desc2902 d']> l).
Proof.
  intros Hp (Hle & Hnone & Hsome). unfold dscVec_ok.
  rewrite (count2902_insert _ _ _ d' Hp).
  rewrite (find_descriptor_insert _ _ _ (Desc2902 d') _ Hp eq_refl).
  split; [exact Hle | split; [exact Hnone |]].
  intros q Hq. destruct (Hsome q Hq) as [dq Hdq].
  destruct (decide (p = q)) as [-> | Hne].
  - exists d'. apply list_lookup_insert_eq. eapply lookup_lt_Some, Hdq.
  - exists dq. rewrite list_lookup_insert_ne by exact Hne. exact Hdq.
Qed.

Lemma chr_ok_construct (uuid : NimBLEUUID) (properties : Z)
    (svc : option NimBLEService) :
  chr_ok (construct uuid properties svc).
Proof.
  split; [reflexivity | split; [apply dscVec_ok_nil |]].
  intros p d H. destruct p; discriminate.
Qed.

Lemma chr_ok_push (c : NimBLECharacteristic) (x : NimBLEDescriptor) :
  chr_ok c -> dscVec_ok (m_dscVec c ++ [x]) ->
  (forall d, x = Desc2902 d -> m_subscribedVec d = []) ->
  chr_ok (snd (push_back_dsc c x)).
Proof.
  intros (Hacc & _ & Hnd) Hok Hx. split; [exact Hacc | split; [exact Hok |]].
  simpl. intros p d Hp.
  apply lookup_app_Some in Hp as [Hp | [_ Hp]]; [eapply Hnd, Hp |].
  destruct (p - length (m_dscVec c))%nat; [| destruct n; discriminate].
  simpl in Hp. inversion Hp as [Hd]. rewrite (Hx d Hd). constructor.
Qed.

Lemma do_call_ok (c c' : NimBLECharacteristic) (k : call) :
  do_call c k = Some c' -> chr_ok c -> chr_ok c'.
Proof.
  intros Hk Hok. pose proof Hok as (Hacc & Hvec & Hnd).
  destruct k as [data | event | uuid properties max_len | h ch ah ctxt];
    simpl in Hk.
  - unfold setValue in Hk. destruct (_ >? _); inversion Hk; subst;
      [exact Hok | split; [exact Hacc | split; assumption]].
  - unfold setSubscribe in Hk.
    destruct (lookup2902 c) as [|p d|] eqn:Hlk; inversion Hk; subst;
      [exact Hok |].
    apply lookup2902_at in Hlk as [_ Hp].
    split; [exact Hacc | split; [eapply dscVec_ok_insert; eassumption |]].
    simpl. intros q dq Hq.
    destruct (decide (p = q)) as [-> | Hne].
    + rewrite list_lookup_insert_eq in Hq by (eapply lookup_lt_Some, Hp).
      inversion Hq; subst. simpl.
      apply update_subscribedVec_NoDup. eapply Hnd, Hp.
    + rewrite list_lookup_insert_ne in Hq by exact Hne. eapply Hnd, Hq.
  - unfold createDescriptor in Hk.
    destruct (uuid_eqb uuid uuid2902) eqn:Hu.
    + destruct (negb _ && negb _); [discriminate |].
      apply uuid_eqb_eq in Hu. subst uuid.
      unfold getDescriptorByUUID in Hk.
      destruct (find_descriptor (m_dscVec c) uuid2902) eqn:Hq;
        inversion Hk; subst; [exact Hok |].
      apply chr_ok_push; [exact Hok | |].
      * apply dscVec_ok_push_2902; assumption.
      * intros d Hd. inversion Hd. reflexivity.
    + destruct (uuid_eqb uuid uuid2904) eqn:Hu4; inversion Hk; subst.
      * apply chr_ok_push; [exact Hok | | discriminate].
        apply dscVec_ok_push_other; auto.
      * apply chr_ok_push; [exact Hok | | discriminate].
        apply dscVec_ok_push_other; auto.
  - unfold handleGapEvent in Hk.
    destruct (uuid_eqb _ _); [destruct (op ctxt) |];
      try destruct (_ >? BLE_ATT_ATTR_MAX_LEN);
      inversion Hk; subst; try exact Hok.
    split; [reflexivity | split; assumption].
Qed.

Lemma do_calls_ok (ks : list call) (c c' : NimBLECharacteristic) :
  do_calls c ks = Some c' -> chr_ok c -> chr_ok c'.
Proof.
  revert c. induction ks as [|k rest IH]; intros c H Hok; simpl in H.
  - inversion H; subst. exact Hok.
  - destruct (do_call c k) as [c1|] eqn:Hk; [| discriminate].
    eapply IH; [exact H |]. eapply do_call_ok; eassumption.
Qed.

Lemma chr_ok_lookup2902 (c : NimBLECharacteristic) :
  chr_ok c -> lookup2902 c <> p2902_bad_cast.
Proof.
  intros (_ & (_ & _ & Hsome) & _). unfold lookup2902, getDescriptorByUUID.
  destruct (find_descriptor (m_dscVec c) uuid2902) as [p|] eqn:Hp;
    [| discriminate].
  destruct (Hsome p eq_refl) as [d Hd]. rewrite Hd. discriminate.
Qed.

(** On a characteristic built by the constructor and any run of
    [setValue], [setSubscribe], [createDescriptor] and [handleGapEvent]
    calls: the descriptor found for UUID 0x2902 really is a [NimBLE2902], so
    the cast in [setSubscribe] is sound and [setSubscribe] returns; there
    is at most one such descriptor; its subscriber table lists no
    connection twice; and no write is left half accumulated. *)
Theorem reachable_invariants (uuid : NimBLEUUID) (properties : Z)
    (svc : option NimBLEService) (ks : list call)
    (c : NimBLECharacteristic) :
  do_calls (construct uuid properties svc) ks = Some c ->
  lookup2902 c <> p2902_bad_cast
  /\ (forall event, exists c' t, setSubscribe c event = Returned (c', t))
  /\ (count2902 (m_dscVec c) <= 1)%nat
  /\ (forall vec, subscribers c = Some vec -> NoDup (conn_id <$> vec))
  /\ NimBLEValue.m_accumulation (m_value c) = [].
Proof.
  intros H.
  pose proof (do_calls_ok ks _ _ H (chr_ok_construct uuid properties svc))
    as Hok.
  pose proof (chr_ok_lookup2902 c Hok) as Hcast.
  destruct Hok as (Hacc & Hvec & Hnd).
  split; [exact Hcast |]. split.
  { intros event. unfold setSubscribe.
    destruct (lookup2902 c); [eauto | eauto | contradiction]. }
  split; [apply Hvec |]. split; [| exact Hacc].
  intros vec Hsub.
  destruct (subscribers_lookup c vec Hsub) as (p & d & Hlk & <-).
  apply lookup2902_at in Hlk as [_ Hp]. eapply Hnd, Hp.
Qed.

Lemma reachable_invariants_witness :
  lookup2902 chr_ind_then_both <> p2902_bad_cast
  /\ (count2902 (m_dscVec chr_ind_then_both) <= 1)%nat.
Proof.
  destruct (reachable_invariants (UUID16 0x2a37) 0x30 service_mtu23
              [call_createDescriptor uuid2902 0 0;
               call_setSubscribe (mk_subscribe 1 false true);
               call_setSubscribe (mk_subscribe 2 true true)]
              chr_ind_then_both) as (Hcast & _ & Hcount & _).
  - vm_compute. reflexivity.
  - split; assumption.
Defined.



(** ** A whole notify pass *)

Lemma sent_app (a b : list action) : sent (a ++ b) = sent a ++ sent b.
Proof. induction a as [|[] a IH]; simpl; rewrite ?IH; reflexivity. Qed.

Lemma statuses_app (a b : list action) :
  statuses (a ++ b) = statuses a ++ statuses b.
Proof. induction a as [|[] a IH]; simpl; rewrite ?IH; reflexivity. Qed.

Lemma gives_app (a b : list action) : gives (a ++ b) = gives a ++ gives b.
Proof. induction a as [|[] a IH]; simpl; rewrite ?IH; reflexivity. Qed.

Lemma indicated_app (a b : list action) :
  indicated (a ++ b) = indicated a ++ indicated b.
Proof. induction a as [|[] a IH]; simpl; rewrite ?IH; reflexivity. Qed.

Lemma notified_app (a b : list action) :
  notified (a ++ b) = notified a ++ notified b.
Proof. induction a as [|[] a IH]; simpl; rewrite ?IH; reflexivity. Qed.

Lemma takes_app (a b : list action) :
  takes (a ++ b) = (takes a + takes b)%nat.
Proof. induction a as [|[] a IH]; simpl; rewrite ?IH; reflexivity. Qed.

Lemma waits_app (a b : list action) :
  waits (a ++ b) = (waits a + waits b)%nat.
Proof. induction a as [|[] a IH]; simpl; rewrite ?IH; reflexivity. Qed.

Section NotifyOneSummary.

Variables (c : NimBLECharacteristic) (h : Host) (srv : NimBLEServer).
Variables (is_notification : bool) (it : chr_sub_status_t).

(** Whether the subscriber is served by an indication: the semaphore
    exists and the mode left after the two fallback tests is indicate. *)
Lemma notify_one_delivery :
  skipped srv it = false ->
  let r := notify_one c h srv is_notification it in
  let by_indicate :=
    match m_pSemaphore c with Some _ => negb (fst r) | None => false end in
  indicated (snd r) = (if by_indicate then [conn_id it] else [])
  /\ notified (snd r) = (if by_indicate then [] else [conn_id it])
  /\ fst <$> sent (snd r) = [conn_id it]
  /\ length (statuses (snd r)) = 1%nat
  /\ takes (snd r) = length (indicated (snd r))
  /\ (takes (snd r) = length (gives (snd r)) + waits (snd r))%nat.
Proof.
  unfold skipped. intros H. apply orb_false_iff in H as [H1 H2].
  unfold notify_one. rewrite H1, H2.
  repeat match goal with
         | |- context [if ?b then _ else _] => destruct b eqn:?; simpl
         | |- context [match m_pSemaphore ?x with _ => _ end] =>
             destruct (m_pSemaphore x) eqn:?; simpl
         end;
    repeat split.
Qed.

End NotifyOneSummary.

Section NotifyLoop.

Variables (c : NimBLECharacteristic) (h : Host) (srv : NimBLEServer).

Lemma notify_loop_sent (vec : list chr_sub_status_t) (b : bool) :
  let t := notify_loop c h srv b vec in
  fst <$> sent t = conn_id <$> processed srv vec
  /\ length (statuses t) = length (processed srv vec)
  /\ takes t = length (indicated t)
  /\ (takes t = length (gives t) + waits t)%nat.
Proof.
  revert b. induction vec as [|it rest IH]; intros b; simpl;
    [repeat split |].
  destruct (notify_one c h srv b it) as [b' t1] eqn:Hone.
  destruct (IH b') as (IH1 & IH2 & IH3 & IH4).
  rewrite sent_app, statuses_app, takes_app, indicated_app, gives_app,
    waits_app, fmap_app, !length_app, IH1, IH2, IH3.
  unfold processed. destruct (skipped srv it) eqn:Hsk.
  - rewrite notify_one_skipped in Hone by exact Hsk.
    inversion Hone; subst. rewrite filter_cons_False by congruence.
    simpl. repeat split; congruence.
  - destruct (notify_one_delivery c h srv b it Hsk)
      as (_ & _ & Hs & Hst & Htk & Hbal).
    rewrite Hone in Hs, Hst, Htk, Hbal. simpl in Hs, Hst, Htk, Hbal.
    rewrite filter_cons_True by exact Hsk.
    rewrite Hs, Hst, <- Htk. simpl. repeat split.
    rewrite Hbal. lia.
Qed.

End NotifyLoop.

Lemma notify_returns (c : NimBLECharacteristic) (h : Host) (b : bool)
    (svc : NimBLEService) (srv : NimBLEServer)
    (vec : list chr_sub_status_t) :
  getService c = Some svc -> getServer svc = Some srv ->
  getConnectedCount srv <> 0 ->
  subscribers c = Some vec ->
  notify c h b = Returned (onNotify :: notify_loop c h srv b vec).
Proof.
  intros Hsvc Hsrv Hn Hsub.
  destruct (subscribers_lookup c vec Hsub) as (p & d & Hlk & <-).
  unfold notify. rewrite Hsvc, Hsrv, Hlk.
  destruct (Z.eqb_spec (getConnectedCount srv) 0); [contradiction |].
  reflexivity.
Qed.

Lemma notify_pass_order_aux (c : NimBLECharacteristic) (h : Host) (b : bool)
    (svc : NimBLEService) (srv : NimBLEServer)
    (vec : list chr_sub_status_t) :
  getService c = Some svc -> getServer svc = Some srv ->
  getConnectedCount srv <> 0 ->
  subscribers c = Some vec ->
  exists t,
    notify c h b = Returned (onNotify :: t)
    /\ fst <$> sent t = conn_id <$> processed srv vec.
Proof.
  intros Hsvc Hsrv Hn Hsub.
  exists (notify_loop c h srv b vec).
  split; [eapply notify_returns; eassumption |].
  apply (notify_loop_sent c h srv vec b).
Qed.

(** With no connected client [notify] and [indicate] return at once: no
    callback, no send, no use of the semaphore, whether or not a 2902
    descriptor exists. *)
Theorem notify_no_clients (c : NimBLECharacteristic) (h : Host) (b : bool)
    (svc : NimBLEService) (srv : NimBLEServer) :
  getService c = Some svc -> getServer svc = Some srv ->
  getConnectedCount srv = 0 ->
  notify c h b = Returned [] /\ indicate c h = Returned [].
Proof.
  intros Hsvc Hsrv Hn. unfold indicate, notify.
  rewrite Hsvc, Hsrv, Hn. split; reflexivity.
Qed.

Lemma notify_no_clients_witness :
  notify (construct (UUID16 1) 0x10
                    (Some (mkService (Some (mkServer 0 (fun _ => 23))))))
         host_ok true
  = Returned [].
Proof.
  apply (notify_no_clients
           (construct (UUID16 1) 0x10
                      (Some (mkService (Some (mkServer 0 (fun _ => 23))))))
           host_ok true (mkService (Some (mkServer 0 (fun _ => 23))))
           (mkServer 0 (fun _ => 23))); reflexivity.
Defined.

(** A pass over a characteristic with connected clients and a 2902
    descriptor runs the pre-send callback first and then serves, in table
    order, exactly the subscribers with a non-zero MTU and non-zero flags:
    one send each, and one status callback per send. *)
Theorem notify_pass_order (c : NimBLECharacteristic) (h : Host) (b : bool)
    (svc : NimBLEService) (srv : NimBLEServer)
    (vec : list chr_sub_status_t) :
  getService c = Some svc -> getServer svc = Some srv ->
  getConnectedCount srv <> 0 ->
  subscribers c = Some vec ->
  exists t,
    notify c h b = Returned (onNotify :: t)
    /\ fst <$> sent t = conn_id <$> processed srv vec
    /\ length (statuses t) = length (sent t).
Proof.
  intros Hsvc Hsrv Hn Hsub.
  exists (notify_loop c h srv b vec).
  split; [eapply notify_returns; eassumption |].
  destruct (notify_loop_sent c h srv vec b) as (Hs & Hst & _).
  split; [exact Hs |].
  rewrite Hst, <- (length_fmap conn_id), <- Hs, length_fmap. reflexivity.
Qed.

Lemma notify_pass_order_witness :
  exists t,
    notify chr_ind_then_both host_ok true = Returned (onNotify :: t)
    /\ fst <$> sent t = [1; 2].
Proof.
  destruct (notify_pass_order chr_ind_then_both host_ok true
              (mkService (Some server_mtu23)) server_mtu23
              [mk_sub 1 2; mk_sub 2 3])
    as (t & Hrun & Hsent & _); try reflexivity.
  - vm_compute. discriminate.
  - exists t. split; [exact Hrun | exact Hsent].
Defined.

(** In every pass the semaphore is taken once per indication sent, and
    each take is matched by a give (the send failed) or a wait (the send
    succeeded): it is never left held, and never touched for a
    notification. *)
Theorem notify_semaphore_balance (c : NimBLECharacteristic) (h : Host)
    (b : bool) (svc : NimBLEService) (srv : NimBLEServer)
    (vec : list chr_sub_status_t) :
  getService c = Some svc -> getServer svc = Some srv ->
  getConnectedCount srv <> 0 ->
  subscribers c = Some vec ->
  exists t,
    notify c h b = Returned t
    /\ takes t = length (indicated t)
    /\ (takes t = length (gives t) + waits t)%nat.
Proof.
  intros Hsvc Hsrv Hn Hsub.
  exists (onNotify :: notify_loop c h srv b vec).
  split; [eapply notify_returns; eassumption |].
  destruct (notify_loop_sent c h srv vec b) as (_ & _ & Htk & Hbal).
  simpl. split; assumption.
Qed.

Lemma notify_semaphore_balance_witness :
  exists t,
    notify chr_indicate_only host_indicate_enomem false = Returned t
    /\ takes t = length (indicated t)
    /\ (takes t = length (gives t) + waits t)%nat.
Proof.
  apply (notify_semaphore_balance chr_indicate_only host_indicate_enomem
           false (mkService (Some server_mtu23)) server_mtu23
           [mk_sub 1 2]); try reflexivity.
  vm_compute. discriminate.
Defined.

Section NotifyLoopModes.

Variables (c : NimBLECharacteristic) (h : Host) (srv : NimBLEServer).

Lemma notify_one_statuses (b : bool) (it : chr_sub_status_t) :
  Forall status_agrees (statuses (snd (notify_one c h srv b it))).
Proof.
  unfold notify_one.
  repeat match goal with
         | |- context [if ?x then _ else _] => destruct x eqn:?; simpl
         | |- context [match m_pSemaphore ?x with _ => _ end] =>
             destruct (m_pSemaphore x) eqn:?; simpl
         end;
    repeat constructor; unfold status_agrees; simpl;
    repeat match goal with
           | H : (_ =? _) = true |- _ => apply Z.eqb_eq in H
           | H : (_ =? _) = false |- _ => apply Z.eqb_neq in H
           | H : negb _ = true |- _ => apply negb_true_iff in H
           | H : negb _ = false |- _ => apply negb_false_iff in H
           | H : _ || _ = false |- _ => apply orb_false_iff in H as [? ?]
           end;
    try congruence; try (repeat split; congruence).
Qed.

Lemma notify_loop_statuses (vec : list chr_sub_status_t) (b : bool) :
  Forall status_agrees (statuses (notify_loop c h srv b vec)).
Proof.
  revert b. induction vec as [|it rest IH]; intros b; simpl;
    [constructor |].
  pose proof (notify_one_statuses b it) as H1.
  destruct (notify_one c h srv b it) as [b' t1].
  rewrite statuses_app. apply Forall_app. split; [exact H1 | apply IH].
Qed.

Lemma notify_loop_by_flags (vec : list chr_sub_status_t) (b : bool)
    (it : chr_sub_status_t) :
  it ∈ processed srv vec ->
  let t := notify_loop c h srv b vec in
  (test (sub_val it) NIMBLE_DESC_FLAG_INDICATE = false ->
     conn_id it ∈ notified t)
  /\ (m_pSemaphore c = None -> conn_id it ∈ notified t)
  /\ (test (sub_val it) NIMBLE_DESC_FLAG_INDICATE = true ->
      test (sub_val it) NIMBLE_DESC_FLAG_NOTIFY = false ->
      m_pSemaphore c <> None ->
      conn_id it ∈ indicated t).
Proof.
  revert b. induction vec as [|x rest IH]; intros b Hin.
  - inversion Hin.
  - unfold processed in Hin. simpl.
    destruct (notify_one c h srv b x) as [b' t1] eqn:Hone.
    rewrite notified_app, indicated_app.
    destruct (skipped srv x) eqn:Hsk.
    + rewrite filter_cons_False in Hin by congruence.
      destruct (IH b' Hin) as (H1 & H2 & H3).
      repeat split; intros; apply elem_of_app; right; auto.
    + rewrite filter_cons_True in Hin by exact Hsk.
      apply elem_of_cons in Hin as [-> | Hin].
      * pose proof (notify_one_mode c h srv b x Hsk) as Hmode.
        destruct (notify_one_delivery c h srv b x Hsk)
          as (Hind & Hnot & _).
        rewrite Hone in Hmode, Hind, Hnot. simpl in Hmode, Hind, Hnot.
        rewrite Hind, Hnot.
        split; [| split].
        -- intros HI. rewrite HI, orb_true_r in Hmode. subst b'.
           apply elem_of_app. left.
           destruct (m_pSemaphore c); simpl; left.
        -- intros Hsem. rewrite Hsem. apply elem_of_app. left. left.
        -- intros HI HN Hsem. rewrite HI, HN, andb_false_r in Hmode.
           simpl in Hmode. subst b'.
           apply elem_of_app. left.
           destruct (m_pSemaphore c); [simpl; left | congruence].
      * destruct (IH b' Hin) as (H1 & H2 & H3).
        repeat split; intros; apply elem_of_app; right; auto.
Qed.

Lemma notify_loop_no_semaphore (vec : list chr_sub_status_t) (b : bool) :
  m_pSemaphore c = None ->
  indicated (notify_loop c h srv b vec) = []
  /\ notified (notify_loop c h srv b vec) = conn_id <$> processed srv vec.
Proof.
  intros Hsem. revert b. induction vec as [|x rest IH]; intros b; simpl;
    [split; reflexivity |].
  destruct (notify_one c h srv b x) as [b' t1] eqn:Hone.
  rewrite notified_app, indicated_app.
  destruct (IH b') as [IH1 IH2]. rewrite IH1, IH2.
  unfold processed. destruct (skipped srv x) eqn:Hsk.
  - rewrite notify_one_skipped in Hone by exact Hsk.
    inversion Hone; subst. rewrite filter_cons_False by congruence.
    split; reflexivity.
  - destruct (notify_one_delivery c h srv b x Hsk) as (Hind & Hnot & _).
    rewrite Hone, Hsem in Hind, Hnot. simpl in Hind, Hnot.
    rewrite Hind, Hnot, filter_cons_True by exact Hsk.
    split; reflexivity.
Qed.

End NotifyLoopModes.

(** Every status callback of a pass carries a status and a code that
    agree: [SUCCESS_NOTIFY] and [SUCCESS_INDICATE] come with code 0,
    [ERROR_GATT] and [ERROR_INDICATE_FAILURE] with a non-zero code,
    [ERROR_INDICATE_TIMEOUT] with [BLE_HS_ETIMEOUT]; the statuses
    [ERROR_INDICATE_DISABLED], [ERROR_NOTIFY_DISABLED] and
    [ERROR_NO_CLIENT] are never reported. *)
Theorem notify_statuses_agree (c : NimBLECharacteristic) (h : Host)
    (b : bool) (t : list action) :
  notify c h b = Returned t -> Forall status_agrees (statuses t).
Proof.
  unfold notify.
  destruct (getService c) as [svc|]; [| discriminate].
  destruct (getServer svc) as [srv|]; [| discriminate].
  destruct (getConnectedCount srv =? 0).
  - intros H. inversion H. constructor.
  - destruct (lookup2902 c); try discriminate.
    intros H. inversion H. simpl. apply notify_loop_statuses.
Qed.

Lemma notify_statuses_agree_witness :
  Forall status_agrees [(ERROR_INDICATE_FAILURE, 6)].
Proof.
  apply (notify_statuses_agree chr_indicate_only host_indicate_enomem false
           [onNotify; sem_take "indicate";
            gattc_indicate 1 NULL_HANDLE ["a"%byte; "b"%byte];
            sem_give give_default; onStatus ERROR_INDICATE_FAILURE 6]).
  vm_compute. reflexivity.
Defined.

(** A processed subscriber whose flags lack indicate is always sent a
    notification, and one whose flags have indicate but not notify is
    always sent an indication when the semaphore exists, whatever mode was
    requested and whoever was served before; without the semaphore every
    processed subscriber is sent a notification and none an indication. *)
Theorem notify_delivery_by_flags (c : NimBLECharacteristic) (h : Host)
    (b : bool) (svc : NimBLEService) (srv : NimBLEServer)
    (vec : list chr_sub_status_t) :
  getService c = Some svc -> getServer svc = Some srv ->
  getConnectedCount srv <> 0 ->
  subscribers c = Some vec ->
  exists t,
    notify c h b = Returned t
    /\ (forall it, it ∈ processed srv vec ->
          (test (sub_val it) NIMBLE_DESC_FLAG_INDICATE = false ->
             conn_id it ∈ notified t)
          /\ (test (sub_val it) NIMBLE_DESC_FLAG_INDICATE = true ->
              test (sub_val it) NIMBLE_DESC_FLAG_NOTIFY = false ->
              m_pSemaphore c <> None ->
              conn_id it ∈ indicated t))
    /\ (m_pSemaphore c = None ->
          indicated t = []
          /\ notified t = conn_id <$> processed srv vec
          /\ takes t = 0%nat /\ gives t = [] /\ waits t = 0%nat).
Proof.
  intros Hsvc Hsrv Hn Hsub.
  exists (onNotify :: notify_loop c h srv b vec).
  split; [eapply notify_returns; eassumption |]. simpl.
  split.
  - intros it Hin.
    destruct (notify_loop_by_flags c h srv vec b it Hin) as (H1 & _ & H3).
    split; assumption.
  - intros Hsem.
    destruct (notify_loop_no_semaphore c h srv vec b Hsem) as [Hi Hno].
    destruct (notify_loop_sent c h srv vec b) as (_ & _ & Htk & Hbal).
    rewrite Hi in Htk. simpl in Htk. rewrite Htk in Hbal.
    split; [exact Hi | split; [exact Hno | split; [exact Htk |]]].
    destruct (gives (notify_loop c h srv b vec)); simpl in Hbal;
      [split; [reflexivity | lia] | lia].
Qed.

Lemma notify_delivery_by_flags_witness :
  exists t,
    notify chr_both_then_ind host_ok false = Returned t
    /\ 1 ∈ indicated t.
Proof.
  destruct (notify_delivery_by_flags chr_both_then_ind host_ok false
              (mkService (Some server_mtu23)) server_mtu23
              [mk_sub 2 3; mk_sub 1 2])
    as (t & Hrun & Hflags & _); try reflexivity.
  - vm_compute. discriminate.
  - exists t. split; [exact Hrun |].
    apply (Hflags (mk_sub 1 2)).
    + apply list_elem_of_In. vm_compute. auto.
    + reflexivity.
    + reflexivity.
    + vm_compute. discriminate.
Defined.

(** ** Subscription events followed by a pass *)

Lemma setSubscribe_then (c : NimBLECharacteristic) (event : ble_gap_event)
    (vec : list chr_sub_status_t) :
  subscribers c = Some vec ->
  exists t0,
    setSubscribe c event = Returned (then_setSubscribe c event, t0)
    /\ getService (then_setSubscribe c event) = getService c
    /\ m_pSemaphore (then_setSubscribe c event) = m_pSemaphore c
    /\ m_value (then_setSubscribe c event) = m_value c.
Proof.
  intros Hsub.
  destruct (subscribers_lookup c vec Hsub) as (p & d & Hlk & _).
  unfold then_setSubscribe, setSubscribe. rewrite Hlk.
  eexists. repeat split.
Qed.

Lemma processed_ids_NoDup (srv : NimBLEServer)
    (vec : list chr_sub_status_t) :
  NoDup (conn_id <$> vec) -> NoDup (conn_id <$> processed srv vec).
Proof.
  intros H. eapply sublist_NoDup; [exact H |].
  apply fmap_sublist, sublist_filter.
Qed.

(** After a connection wrote zero flags it is not served by the next
    pass. *)
Theorem unsubscribed_not_served (c : NimBLECharacteristic) (h : Host)
    (b : bool) (svc : NimBLEService) (srv : NimBLEServer)
    (vec : list chr_sub_status_t) (event : ble_gap_event) :
  getService c = Some svc -> getServer svc = Some srv ->
  getConnectedCount srv <> 0 ->
  subscribers c = Some vec -> NoDup (conn_id <$> vec) ->
  cur_notify event = false -> cur_indicate event = false ->
  exists c' t0 t,
    setSubscribe c event = Returned (c', t0)
    /\ notify c' h b = Returned t
    /\ uint16_t (conn_handle event) ∉ fst <$> sent t.
Proof.
  intros Hsvc Hsrv Hn Hsub Hnd Hcn Hci.
  destruct (setSubscribe_then c event vec Hsub) as (t0 & Hrun & Hs & _).
  pose proof (then_setSubscribe_subscribers c event vec Hsub) as Hsub'.
  assert (Hz : subVal_of event = 0)
    by (rewrite subVal_of_cases, Hcn, Hci; reflexivity).
  rewrite Hz, update_subscribedVec_remove in Hsub' by (try lia; exact Hnd).
  rewrite <- Hs in Hsvc.
  destruct (notify_pass_order_aux _ h b svc srv _ Hsvc Hsrv Hn Hsub')
    as (t & Hrun' & Hsent).
  exists (then_setSubscribe c event), t0, (onNotify :: t).
  split; [exact Hrun | split; [exact Hrun' |]].
  simpl. rewrite Hsent. intros Hin.
  apply list_elem_of_fmap in Hin as (it & Heq & Hin).
  apply list_elem_of_filter in Hin as [_ Hin].
  apply (filter_other_ids (uint16_t (conn_handle event)) vec).
  apply list_elem_of_fmap. exists it. split; assumption.
Qed.

Lemma unsubscribed_not_served_witness :
  exists c' t0 t,
    setSubscribe chr_ind_then_both (mk_subscribe 1 false false)
      = Returned (c', t0)
    /\ notify c' host_ok true = Returned t
    /\ 1 ∉ fst <$> sent t.
Proof.
  apply (unsubscribed_not_served chr_ind_then_both host_ok true
           (mkService (Some server_mtu23)) server_mtu23
           [mk_sub 1 2; mk_sub 2 3] (mk_subscribe 1 false false));
    try reflexivity.
  - vm_compute. discriminate.
  - apply (bool_decide_unpack _). vm_compute. exact I.
Defined.

(** After a connection with a non-zero MTU enabled notifications or
    indications, the next pass sends to it, and no pass sends to a
    connection twice. *)
Theorem subscribed_served_once (c : NimBLECharacteristic) (h : Host)
    (b : bool) (svc : NimBLEService) (srv : NimBLEServer)
    (vec : list chr_sub_status_t) (event : ble_gap_event) :
  getService c = Some svc -> getServer svc = Some srv ->
  getConnectedCount srv <> 0 ->
  subscribers c = Some vec -> NoDup (conn_id <$> vec) ->
  cur_notify event || cur_indicate event = true ->
  uint16_t (getPeerMTU srv (uint16_t (conn_handle event))) <> 0 ->
  exists c' t0 t,
    setSubscribe c event = Returned (c', t0)
    /\ notify c' h b = Returned t
    /\ uint16_t (conn_handle event) ∈ fst <$> sent t
    /\ NoDup (fst <$> sent t).
Proof.
  intros Hsvc Hsrv Hn Hsub Hnd Hflags Hmtu.
  set (conn := uint16_t (conn_handle event)) in *.
  destruct (setSubscribe_then c event vec Hsub) as (t0 & Hrun & Hs & _).
  pose proof (then_setSubscribe_subscribers c event vec Hsub) as Hsub'.
  fold conn in Hsub'.
  assert (Hpos : 0 < subVal_of event).
  { rewrite subVal_of_cases.
    destruct (cur_notify event), (cur_indicate event); simpl in Hflags;
      try lia; discriminate. }
  set (vec' := update_subscribedVec vec conn (subVal_of event)) in *.
  assert (Hnd' : NoDup (conn_id <$> vec'))
    by apply update_subscribedVec_NoDup, Hnd.
  assert (Hentry : mk_sub conn (subVal_of event) ∈ vec').
  { unfold vec'. destruct (decide (conn ∈ conn_id <$> vec)) as [Hin | Habs].
    - rewrite update_subscribedVec_update by assumption.
      apply list_elem_of_fmap in Hin as (e & He & Hin).
      apply list_elem_of_fmap. exists e. split; [| exact Hin].
      unfold upsert_entry. rewrite <- He, Z.eqb_refl. reflexivity.
    - rewrite update_subscribedVec_insert by assumption.
      apply elem_of_app. right. left. }
  rewrite <- Hs in Hsvc.
  destruct (notify_pass_order_aux _ h b svc srv _ Hsvc Hsrv Hn Hsub')
    as (t & Hrun' & Hsent).
  exists (then_setSubscribe c event), t0, (onNotify :: t).
  split; [exact Hrun | split; [exact Hrun' |]].
  simpl. rewrite Hsent. split; [| apply processed_ids_NoDup, Hnd'].
  apply list_elem_of_fmap. exists (mk_sub conn (subVal_of event)).
  split; [reflexivity |].
  apply list_elem_of_filter. split; [| exact Hentry].
  unfold skipped. simpl. apply orb_false_iff. split.
  - apply Z.eqb_neq, Hmtu.
  - apply Z.eqb_neq. lia.
Qed.

Lemma subscribed_served_once_witness :
  exists c' t0 t,
    setSubscribe chr_indicate_only (mk_subscribe 7 true false)
      = Returned (c', t0)
    /\ notify c' host_ok true = Returned t
    /\ 7 ∈ fst <$> sent t
    /\ NoDup (fst <$> sent t).
Proof.
  apply (subscribed_served_once chr_indicate_only host_ok true
           (mkService (Some server_mtu23)) server_mtu23
           [mk_sub 1 2] (mk_subscribe 7 true false));
    try reflexivity.
  - vm_compute. discriminate.
  - apply (bool_decide_unpack _). vm_compute. exact I.
  - vm_compute. discriminate.
Defined.

(** ** How transport results become statuses *)



(** ** Descriptors *)

Lemma find_descriptor_spec (l : list NimBLEDescriptor) (uuid : NimBLEUUID) :
  match find_descriptor l uuid with
  | None => forall d, d ∈ l -> dsc_getUUID d <> uuid
  | Some p =>
      (exists d, l !! p = Some d /\ dsc_getUUID d = uuid)
      /\ (forall q d, (q < p)%nat -> l !! q = Some d -> dsc_getUUID d <> uuid)
  end.
Proof.
  induction l as [|x rest IH]; simpl.
  - intros d H. inversion H.
  - destruct (uuid_eqb (dsc_getUUID x) uuid) eqn:Hx.
    + apply uuid_eqb_eq in Hx. split; [eauto | intros q d Hq; lia].
    + assert (Hne : dsc_getUUID x <> uuid).
      { intros E. apply uuid_eqb_eq in E. congruence. }
      destruct (find_descriptor rest uuid) as [p|]; simpl.
      * destruct IH as [Hd Hfirst]. split; [exact Hd |].
        intros [|q] d Hq Hl; simpl in Hl.
        -- inversion Hl; subst. exact Hne.
        -- eapply Hfirst; [| exact Hl]. lia.
      * intros d Hd. apply elem_of_cons in Hd as [-> | Hd]; auto.
Qed.

(** [getDescriptorByUUID] returns [nullptr] exactly when no descriptor of
    the characteristic has the UUID, and otherwise the first descriptor, in
    creation order, that has it. *)
Theorem getDescriptorByUUID_first (c : NimBLECharacteristic)
    (uuid : NimBLEUUID) :
  (getDescriptorByUUID c uuid = None <->
     forall d, d ∈ m_dscVec c -> dsc_getUUID d <> uuid)
  /\ (forall p, getDescriptorByUUID c uuid = Some p ->
        (exists d, m_dscVec c !! p = Some d /\ dsc_getUUID d = uuid)
        /\ forall q d, (q < p)%nat -> m_dscVec c !! q = Some d ->
                       dsc_getUUID d <> uuid).
Proof.
  unfold getDescriptorByUUID.
  pose proof (find_descriptor_spec (m_dscVec c) uuid) as H.
  destruct (find_descriptor (m_dscVec c) uuid) as [p|].
  - destruct H as [[d [Hd Hu]] Hfirst]. split.
    + split; [discriminate |]. intros Hall. exfalso.
      apply (Hall d); [| exact Hu]. apply list_elem_of_lookup. eauto.
    + intros q Hq. inversion Hq; subst. split; [eauto | exact Hfirst].
  - split; [split; [intros _; exact H | reflexivity] | discriminate].
Qed.

Lemma getDescriptorByUUID_first_witness :
  exists d, m_dscVec chr_ni !! 0%nat = Some d /\ dsc_getUUID d = uuid2902.
Proof.
  apply (getDescriptorByUUID_first chr_ni uuid2902). reflexivity.
Defined.

Lemma lookup2902_push_other (c : NimBLECharacteristic) (x : NimBLEDescriptor) :
  uuid_eqb (dsc_getUUID x) uuid2902 = false ->
  lookup2902 (snd (push_back_dsc c x)) = lookup2902 c.
Proof.
  intros Hx. unfold lookup2902, getDescriptorByUUID. simpl.
  destruct (find_descriptor (m_dscVec c) uuid2902) as [p|] eqn:Hp.
  - rewrite (find_descriptor_app_Some _ [x] _ _ Hp).
    pose proof (find_descriptor_spec (m_dscVec c) uuid2902) as Hs.
    rewrite Hp in Hs. destruct Hs as [[d [Hd _]] _].
    rewrite lookup_app_l by (eapply lookup_lt_Some, Hd). reflexivity.
  - rewrite (find_descriptor_app_None _ [x] _ Hp). simpl.
    rewrite Hx. reflexivity.
Qed.

(** [createDescriptor] for a UUID other than 0x2902 always appends one new
    descriptor carrying that UUID and returns it, even when a descriptor
    with the UUID already exists (a lookup by UUID then still finds the
    older one); the descriptors already there keep their place, and the
    value and the subscriber table are untouched. *)
Theorem createDescriptor_other (c : NimBLECharacteristic) (uuid : NimBLEUUID)
    (properties max_len : Z) :
  uuid <> uuid2902 ->
  exists c' d,
    createDescriptor c uuid properties max_len
      = Returned (length (m_dscVec c), c')
    /\ m_dscVec c' = m_dscVec c ++ [d]
    /\ dsc_getUUID d = uuid
    /\ (forall p, getDescriptorByUUID c uuid = Some p ->
          getDescriptorByUUID c' uuid = Some p)
    /\ (getDescriptorByUUID c uuid = None ->
          getDescriptorByUUID c' uuid = Some (length (m_dscVec c)))
    /\ subscribers c' = subscribers c
    /\ m_value c' = m_value c.
Proof.
  intros Hne. unfold createDescriptor.
  rewrite (uuid_eqb_neq _ _ Hne).
  assert (Hgen : forall d, dsc_getUUID d = uuid ->
            let c' := snd (push_back_dsc c d) in
            m_dscVec c' = m_dscVec c ++ [d]
            /\ dsc_getUUID d = uuid
            /\ (forall p, getDescriptorByUUID c uuid = Some p ->
                  getDescriptorByUUID c' uuid = Some p)
            /\ (getDescriptorByUUID c uuid = None ->
                  getDescriptorByUUID c' uuid = Some (length (m_dscVec c)))
            /\ subscribers c' = subscribers c
            /\ m_value c' = m_value c).
  { intros d Hd c'. split; [reflexivity | split; [exact Hd |]].
    unfold getDescriptorByUUID. simpl. split; [| split; [| split]].
    - intros p Hp. apply find_descriptor_app_Some, Hp.
    - intros Hnone. rewrite (find_descriptor_app_None _ _ _ Hnone). simpl.
      rewrite Hd, uuid_eqb_refl. simpl. rewrite Nat.add_0_r. reflexivity.
    - unfold subscribers. unfold c'. rewrite lookup2902_push_other;
        [reflexivity |].
      rewrite Hd. apply uuid_eqb_neq, Hne.
    - reflexivity. }
  destruct (uuid_eqb uuid uuid2904) eqn:H4.
  - apply uuid_eqb_eq in H4.
    eexists _, Desc2904. split; [reflexivity |].
    apply Hgen. simpl. congruence.
  - eexists _, (DescPlain uuid (uint32_t properties) (uint16_t max_len)).
    split; [reflexivity |]. apply Hgen. reflexivity.
Qed.

Lemma createDescriptor_other_witness :
  exists c' d,
    createDescriptor chr_ni uuid2904 0 0 = Returned (1%nat, c')
    /\ m_dscVec c' = m_dscVec chr_ni ++ [d]
    /\ dsc_getUUID d = uuid2904.
Proof.
  destruct (createDescriptor_other chr_ni uuid2904 0 0)
    as (c' & d & Hrun & Hvec & Hu & _).
  - vm_compute. discriminate.
  - exists c', d. split; [exact Hrun | split; assumption].
Defined.

(** ** What a subscription event leaves alone *)

Lemma subVal_of_notify (event : ble_gap_event) :
  test (subVal_of event) NIMBLE_DESC_FLAG_NOTIFY = cur_notify event.
Proof.
  rewrite subVal_of_cases.
  destruct (cur_notify event), (cur_indicate event); reflexivity.
Qed.

(** A subscription event on a characteristic with its 2902 descriptor
    sets that descriptor's notification and indication bits to the
    event's, runs the descriptor's write callback once, and changes nothing
    else: the value, the number of descriptors and every other descriptor
    stay as they were, and nothing is sent. *)
Theorem setSubscribe_frame (c : NimBLECharacteristic) (event : ble_gap_event)
    (vec : list chr_sub_status_t) :
  subscribers c = Some vec ->
  exists c' t p d',
    setSubscribe c event = Returned (c', t)
    /\ lookup2902 c' = p2902_at p d'
    /\ notifications d' = cur_notify event
    /\ indications d' = cur_indicate event
    /\ m_value c' = m_value c
    /\ length (m_dscVec c') = length (m_dscVec c)
    /\ (forall q, q <> p -> m_dscVec c' !! q = m_dscVec c !! q)
    /\ dsc_onWrites t = 1%nat
    /\ sent t = [] /\ statuses t = [].
Proof.
  intros Hsub.
  destruct (subscribers_lookup c vec Hsub) as (p & d & Hlk & _).
  unfold setSubscribe. rewrite Hlk.
  eexists _, _, p, _. split; [reflexivity |].
  split; [eapply lookup2902_set, Hlk |].
  simpl. rewrite subVal_of_notify, subVal_of_indicate, length_insert.
  repeat split.
  - intros q Hq. apply list_lookup_insert_ne. congruence.
  - destruct (m_pSemaphore c); reflexivity.
  - destruct (m_pSemaphore c); reflexivity.
  - destruct (m_pSemaphore c); reflexivity.
Qed.

Lemma setSubscribe_frame_witness :
  exists c' t p d',
    setSubscribe chr_ni (mk_subscribe 1 true false) = Returned (c', t)
    /\ lookup2902 c' = p2902_at p d'
    /\ notifications d' = true
    /\ indications d' = false.
Proof.
  destruct (setSubscribe_frame chr_ni (mk_subscribe 1 true false) [])
    as (c' & t & p & d' & H1 & H2 & H3 & H4 & _).
  - reflexivity.
  - exists c', t, p, d'. repeat split; assumption.
Defined.

(** ** Setting a value, then sending it *)

Lemma notify_loop_payloads (c : NimBLECharacteristic) (h : Host)
    (srv : NimBLEServer) (vec : list chr_sub_status_t) (b : bool) :
  Z.of_nat (length (getValue c)) < 2 ^ 32 ->
  sent (notify_loop c h srv b vec)
  = (fun it => (conn_id it, getValue c)) <$> processed srv vec.
Proof.
  intros Hlen. revert b. induction vec as [|it rest IH]; intros b; simpl;
    [reflexivity |].
  destruct (notify_one c h srv b it) as [b' t1] eqn:Hone.
  rewrite sent_app, IH. unfold processed.
  destruct (skipped srv it) eqn:Hsk.
  - rewrite notify_one_skipped in Hone by exact Hsk.
    inversion Hone; subst. rewrite filter_cons_False by congruence.
    reflexivity.
  - destruct (notify_one_payload c h srv b it Hsk Hlen) as [Hs _].
    rewrite Hone in Hs. simpl in Hs.
    rewrite Hs, filter_cons_True by exact Hsk. reflexivity.
Qed.

(** After [setValue] accepted a byte sequence, the next pass hands exactly
    that sequence to the transport for every subscriber it serves, in
    table order. *)
Theorem setValue_then_notify (c : NimBLECharacteristic) (h : Host)
    (b : bool) (svc : NimBLEService) (srv : NimBLEServer)
    (vec : list chr_sub_status_t) (data : list byte) :
  getService c = Some svc -> getServer svc = Some srv ->
  getConnectedCount srv <> 0 ->
  subscribers c = Some vec ->
  Z.of_nat (length data) <= BLE_ATT_ATTR_MAX_LEN ->
  exists t,
    notify (fst (setValue c data)) h b = Returned t
    /\ sent t = (fun it => (conn_id it, data)) <$> processed srv vec.
Proof.
  intros Hsvc Hsrv Hn Hsub Hlen.
  set (c' := fst (setValue c data)).
  assert (Hc' : getValue c' = data /\ getService c' = getService c
                /\ subscribers c' = subscribers c).
  { unfold c', setValue.
    destruct (Z.gtb_spec (Z.of_nat (length data)) BLE_ATT_ATTR_MAX_LEN);
      [lia |].
    simpl. unfold getValue, NimBLEValue.getValue. simpl.
    rewrite firstn_length_all. repeat split. }
  destruct Hc' as (Hval & Hsvc' & Hsub').
  rewrite <- Hsvc' in Hsvc. rewrite <- Hsub' in Hsub.
  exists (onNotify :: notify_loop c' h srv b vec).
  split; [eapply notify_returns; eassumption |].
  simpl. rewrite notify_loop_payloads, Hval; [reflexivity |].
  rewrite Hval. unfold BLE_ATT_ATTR_MAX_LEN in Hlen. lia.
Qed.

Lemma setValue_then_notify_witness :
  exists t,
    notify (fst (setValue chr_ind_then_both ["o"%byte; "k"%byte]))
           host_ok true
    = Returned t
    /\ sent t = [(1, ["o"%byte; "k"%byte]); (2, ["o"%byte; "k"%byte])].
Proof.
  apply (setValue_then_notify chr_ind_then_both host_ok true
           (mkService (Some server_mtu23)) server_mtu23
           [mk_sub 1 2; mk_sub 2 3] ["o"%byte; "k"%byte]);
    try reflexivity.
  - vm_compute. discriminate.
  - vm_compute. discriminate.
Defined.

(** [setValue] never leaves a value longer than the maximum attribute
    length where there was none. *)
Lemma setValue_keeps_bound (c : NimBLECharacteristic) (data : list byte) :
  getDataLength c <= BLE_ATT_ATTR_MAX_LEN ->
  getDataLength (fst (setValue c data)) <= BLE_ATT_ATTR_MAX_LEN.
Proof.
  intros H. unfold setValue.
  destruct (Z.gtb_spec (Z.of_nat (length data)) BLE_ATT_ATTR_MAX_LEN);
    [exact H |].
  unfold getDataLength, NimBLEValue.getLength. simpl.
  rewrite firstn_length_all. assumption.
Qed.

(** ** Integer values *)

Lemma to_uint8_value (z : Z) : Z.of_N (Byte.to_N (to_uint8 z)) = z mod 2 ^ 8.
Proof.
  unfold to_uint8, uint8_t.
  assert (Hr : 0 <= z mod 2 ^ 8 < 2 ^ 8) by (apply Z.mod_pos_bound; lia).
  destruct (Byte.of_N (Z.to_N (z mod 2 ^ 8))) as [b|] eqn:E.
  - apply Byte.to_of_N in E. rewrite E. apply Z2N.id. lia.
  - apply Byte.of_N_None_iff in E. lia.
Qed.

Lemma to_uint8_ext (x y : Z) :
  x mod 2 ^ 8 = y mod 2 ^ 8 -> to_uint8 x = to_uint8 y.
Proof. unfold to_uint8, uint8_t. intros ->. reflexivity. Qed.

Lemma le_bytes_32 (x : Z) :
  x mod 2 ^ 8 + 256 * ((Z.shiftr x 8) mod 2 ^ 8
    + 256 * ((Z.shiftr x 16) mod 2 ^ 8
    + 256 * ((Z.shiftr x 24) mod 2 ^ 8 + 256 * 0)))
  = x mod 2 ^ 32.
Proof.
  rewrite !Z.shiftr_div_pow2 by lia.
  assert (H16 : x / 2 ^ 16 = x / 2 ^ 8 / 2 ^ 8)
    by (rewrite Z.div_div by lia; reflexivity).
  assert (H24 : x / 2 ^ 24 = x / 2 ^ 8 / 2 ^ 8 / 2 ^ 8)
    by (rewrite !Z.div_div by lia; reflexivity).
  rewrite H16, H24.
  pose proof (Z.div_mod x (2 ^ 8) ltac:(lia)) as E0.
  pose proof (Z.div_mod (x / 2 ^ 8) (2 ^ 8) ltac:(lia)) as E1.
  pose proof (Z.div_mod (x / 2 ^ 8 / 2 ^ 8) (2 ^ 8) ltac:(lia)) as E2.
  pose proof (Z.div_mod (x / 2 ^ 8 / 2 ^ 8 / 2 ^ 8) (2 ^ 8) ltac:(lia)) as E3.
  pose proof (Z.mod_pos_bound x (2 ^ 8) ltac:(lia)).
  pose proof (Z.mod_pos_bound (x / 2 ^ 8) (2 ^ 8) ltac:(lia)).
  pose proof (Z.mod_pos_bound (x / 2 ^ 8 / 2 ^ 8) (2 ^ 8) ltac:(lia)).
  pose proof (Z.mod_pos_bound (x / 2 ^ 8 / 2 ^ 8 / 2 ^ 8) (2 ^ 8) ltac:(lia)).
  apply Z.mod_unique with (q := x / 2 ^ 8 / 2 ^ 8 / 2 ^ 8 / 2 ^ 8); lia.
Qed.

Lemma shiftr_byte_mod32 (x k : Z) :
  0 <= k -> k + 8 <= 32 ->
  (Z.shiftr (x mod 2 ^ 32) k) mod 2 ^ 8 = (Z.shiftr x k) mod 2 ^ 8.
Proof.
  intros Hk Hk8. apply Z.bits_inj'. intros i Hi.
  rewrite !Z.testbit_mod_pow2, !Z.shiftr_spec by lia.
  destruct (Z.ltb_spec i 8); [| reflexivity]. simpl.
  rewrite Z.mod_pow2_bits_low by lia. reflexivity.
Qed.

Lemma int32_mod (z : Z) : int32_t z mod 2 ^ 32 = z mod 2 ^ 32.
Proof.
  unfold int32_t. rewrite Zminus_mod_idemp_l. f_equal. lia.
Qed.

Lemma setValue_accepts (c : NimBLECharacteristic) (data : list byte) :
  Z.of_nat (length data) <= BLE_ATT_ATTR_MAX_LEN ->
  getValue (fst (setValue c data)) = data /\ snd (setValue c data) = [].
Proof.
  intros H. unfold setValue.
  destruct (Z.gtb_spec (Z.of_nat (length data)) BLE_ATT_ATTR_MAX_LEN);
    [lia |].
  unfold getValue, NimBLEValue.getValue.
  cbn [fst snd set_value m_value NimBLEValue.setValue NimBLEValue.m_value].
  rewrite firstn_length_all. split; reflexivity.
Qed.

(** The 16-bit overload always stores two bytes, low byte first: read
    back least significant byte first they are the argument modulo
    2^16. *)
Theorem setValue_uint16_le (c : NimBLECharacteristic) (data16 : Z) :
  let r := setValue_uint16 c data16 in
  length (getValue (fst r)) = 2%nat
  /\ le_value (getValue (fst r)) = data16 mod 2 ^ 16
  /\ snd r = [].
Proof.
  unfold setValue_uint16. cbn [firstn]. cbv zeta.
  set (x := uint16_t data16).
  destruct (setValue_accepts c [to_uint8 x; to_uint8 (Z.shiftr x 8)])
    as [Hval Hlog]; [cbn [length]; unfold BLE_ATT_ATTR_MAX_LEN; lia |].
  rewrite Hval, Hlog.
  split; [reflexivity | split; [| reflexivity]].
  cbn [le_value]. rewrite !to_uint8_value.
  assert (Hx : 0 <= x < 2 ^ 16) by (apply Z.mod_pos_bound; lia).
  rewrite Z.shiftr_div_pow2 by lia.
  pose proof (Z.div_mod x (2 ^ 8) ltac:(lia)) as E0.
  pose proof (Z.mod_pos_bound x (2 ^ 8) ltac:(lia)).
  assert (Hq : 0 <= x / 2 ^ 8 < 2 ^ 8)
    by (split; [apply Z.div_pos; lia | apply Z.div_lt_upper_bound; lia]).
  rewrite (Z.mod_small (x / 2 ^ 8)) by exact Hq.
  unfold x, uint16_t in *. lia.
Qed.

(** The 32-bit overloads always store four bytes, low byte first: read
    back least significant byte first they are the argument modulo 2^32,
    and the [int] overload stores the same bytes as the [uint32_t] one
    (two's complement). *)
Theorem setValue_32_le (c : NimBLECharacteristic) (data32 : Z) :
  let r := setValue_uint32 c data32 in
  length (getValue (fst r)) = 4%nat
  /\ le_value (getValue (fst r)) = data32 mod 2 ^ 32
  /\ snd r = []
  /\ setValue_int c data32 = r.
Proof.
  assert (Hint : setValue_int c data32 = setValue_uint32 c data32).
  { unfold setValue_int, setValue_uint32. do 2 f_equal.
    assert (Hb : forall k, 0 <= k -> k + 8 <= 32 ->
              to_uint8 (Z.shiftr (int32_t data32) k)
              = to_uint8 (Z.shiftr (uint32_t data32) k)).
    { intros k Hk Hk8. apply to_uint8_ext.
      rewrite <- (shiftr_byte_mod32 (int32_t data32)) by assumption.
      rewrite int32_mod. reflexivity. }
    pose proof (Hb 0 ltac:(lia) ltac:(lia)) as H0.
    rewrite !Z.shiftr_0_r in H0.
    rewrite H0, (Hb 8), (Hb 16), (Hb 24) by lia. reflexivity. }
  cbv zeta. split; [| split; [| split; [| exact Hint]]];
    unfold setValue_uint32; cbn [firstn]; cbv zeta;
    set (x := uint32_t data32);
    destruct (setValue_accepts c
                [to_uint8 x; to_uint8 (Z.shiftr x 8);
                 to_uint8 (Z.shiftr x 16); to_uint8 (Z.shiftr x 24)])
      as [Hval Hlog];
    try (cbn [length]; unfold BLE_ATT_ATTR_MAX_LEN; lia);
    rewrite ?Hval, ?Hlog; try reflexivity.
  cbn [le_value]. rewrite !to_uint8_value, le_bytes_32.
  unfold x, uint32_t. apply Z.mod_mod. lia.
Qed.
